(** * The map path component ([src/scripts/components/map/path.js])

    A shallow embedding of the [Path] class of the H5P game map: the
    telemetry computation of a connector between two stages and the
    reachability / visibility / state bookkeeping around it.

    JavaScript numbers are IEEE 754 binary64 values; they are modelled by
    the executable specification of binary64 of the Standard Library
    ([SpecFloat], precision 53, maximal exponent 1024), so every arithmetic
    step of the source rounds here as it does in the browser.  The built-ins
    of the runtime whose results the language standard leaves to the
    implementation (the trigonometric functions, the printing and the
    parsing of numbers) are the fields of a class [JSRuntime]. *)

From Stdlib Require Import ZArith List String Ascii Bool Lia DecimalString.
From Stdlib Require Import Floats.SpecFloat.
Import ListNotations.

Local Open Scope string_scope.
Local Open Scope Z_scope.

(** ** Numbers *)

Definition number : Type := spec_float.

Module Num.

Definition prec : Z := 53.
Definition emax : Z := 1024.

Definition NaN : number := S754_nan.
Definition pzero : number := S754_zero false.
Definition nzero : number := S754_zero true.
Definition pinf : number := S754_infinity false.

(** The number denoted by an integer literal. *)
Definition ofZ (z : Z) : number := binary_normalize prec emax z 0 false.

Definition add : number -> number -> number := SFadd prec emax.
Definition sub : number -> number -> number := SFsub prec emax.
Definition mul : number -> number -> number := SFmul prec emax.
Definition div : number -> number -> number := SFdiv prec emax.
Definition sqrt : number -> number := SFsqrt prec emax.
Definition abs : number -> number := SFabs.

Definition compare : number -> number -> option comparison := SFcompare.
Definition eqb : number -> number -> bool := SFeqb.
Definition ltb : number -> number -> bool := SFltb.
Definition leb : number -> number -> bool := SFleb.

Definition isNaN (x : number) : bool :=
  match x with S754_nan => true | _ => false end.

Definition is_finite (x : number) : bool :=
  match x with S754_zero _ | S754_finite _ _ _ => true | _ => false end.

(** The number denoted by the decimal literal [n/d] for integers [n], [d]
    that binary64 holds exactly: the division rounds the rational to the
    nearest number, which is what reading the literal does. *)
Definition ofRatio (n d : Z) : number := div (ofZ n) (ofZ d).

End Num.

Declare Scope num_scope.
Delimit Scope num_scope with num.
Bind Scope num_scope with number.
Infix "+" := Num.add : num_scope.
Infix "-" := Num.sub : num_scope.
Infix "*" := Num.mul : num_scope.
Infix "/" := Num.div : num_scope.

(** [a >= b] and [a === b] on numbers: both are false as soon as one side
    is NaN, and the two zeros are equal. *)
Definition num_ge (a b : number) : bool := Num.leb b a.
Definition num_strict_eq (a b : number) : bool := Num.eqb a b.

(** ** The [Math] object, as far as the standard fixes it *)

(** [Math.PI], the number nearest to pi: 7074237752028440 * 2^-51. *)
Definition Math_PI : number := S754_finite false 7074237752028440 (-51).

Definition Math_sign (x : number) : number :=
  match x with
  | S754_nan => Num.NaN
  | S754_zero s => S754_zero s
  | S754_infinity s | S754_finite s _ _ =>
      if s then Num.ofZ (-1) else Num.ofZ 1
  end.

Definition Math_max (a b : number) : number :=
  match Num.compare a b with
  | None => Num.NaN
  | Some Lt => b
  | Some Gt => a
  | Some Eq => match a with S754_zero true => b | _ => a end
  end.

Definition Math_min (a b : number) : number :=
  match Num.compare a b with
  | None => Num.NaN
  | Some Lt => a
  | Some Gt => b
  | Some Eq => match a with S754_zero false => b | _ => a end
  end.

Definition Math_abs : number -> number := Num.abs.
Definition Math_sqrt : number -> number := Num.sqrt.

(** ** Values *)

(** The primitive values, and objects by reference. *)
Inductive JSValue : Type :=
| JSUndefined
| JSNull
| JSBool (b : bool)
| JSNum (n : number)
| JSStr (s : string)
| JSObject (ref : nat).

Inductive JSType : Type :=
| TUndefined | TObject | TBoolean | TNumber | TString.

Definition typeof (v : JSValue) : JSType :=
  match v with
  | JSUndefined => TUndefined
  | JSNull => TObject
  | JSBool _ => TBoolean
  | JSNum _ => TNumber
  | JSStr _ => TString
  | JSObject _ => TObject
  end.

Definition JSType_eqb (a b : JSType) : bool :=
  match a, b with
  | TUndefined, TUndefined | TObject, TObject | TBoolean, TBoolean
  | TNumber, TNumber | TString, TString => true
  | _, _ => false
  end.

(** Truthiness, as tested by [if], [!], [?:] and [&&]. *)
Definition ToBoolean (v : JSValue) : bool :=
  match v with
  | JSUndefined | JSNull => false
  | JSBool b => b
  | JSNum n =>
      match n with
      | S754_zero _ | S754_nan => false
      | _ => true
      end
  | JSStr s => negb (String.eqb s "")
  | JSObject _ => true
  end.

(** [a === b]. *)
Definition strict_eq (a b : JSValue) : bool :=
  match a, b with
  | JSUndefined, JSUndefined => true
  | JSNull, JSNull => true
  | JSBool x, JSBool y => Bool.eqb x y
  | JSNum x, JSNum y => num_strict_eq x y
  | JSStr x, JSStr y => String.eqb x y
  | JSObject x, JSObject y => Nat.eqb x y
  | _, _ => false
  end.

(** [a ?? b]. *)
Definition nullish (a b : JSValue) : JSValue :=
  match a with
  | JSUndefined | JSNull => b
  | _ => a
  end.

(** ** The runtime *)

Class JSRuntime : Type := {
  Math_atan : number -> number;
  Math_cos : number -> number;
  Math_sin : number -> number;
  (** [parseFloat] on a string *)
  parseFloat_string : string -> number;
  (** [Number::toString], used by template literals and property keys *)
  Number_toString : number -> string;
  (** the text the object behind a reference converts to *)
  Object_toString : nat -> string
}.

Section Runtime.

Context {rt : JSRuntime}.

(** [parseFloat(v)] prints [v] and parses the text again.  Printing a
    number and reading it back yields the same number, except that the
    negative zero prints as ["0"]; [undefined], [null] and the booleans print
    as words that are no numeric literal. *)
Definition parseFloat (v : JSValue) : number :=
  match v with
  | JSNum (S754_zero _) => Num.pzero
  | JSNum n => n
  | JSStr s => parseFloat_string s
  | JSObject ref => parseFloat_string (Object_toString ref)
  | JSUndefined | JSNull | JSBool _ => Num.NaN
  end.

(** ** Data *)

(** [MATH_TWO], [MATH_HUNDRED] *)
Definition MATH_TWO : number := Num.ofZ 2.
Definition MATH_HUNDRED : number := Num.ofZ 100.

(** [Path.MIN_WIDTH_PX], [Path.MAX_FACTOR] *)
Definition MIN_WIDTH_PX : number := Num.ofZ 1.
Definition MAX_FACTOR : number := Num.ofRatio 3 10.

(** A stage's box on the map, in percent; the fields go through
    [parseFloat], so they may be numbers or strings. *)
Record EndpointBox : Type := {
  x : JSValue;
  y : JSValue;
  width : JSValue;
  height : JSValue
}.

Record MapSize : Type := {
  ms_width : number;
  ms_height : number
}.

Record ConnectorTelemetry : Type := {
  t_x : number;
  t_y : number;
  t_length : number;
  t_angle : number;
  t_width : number
}.

(** The object behind [globals.get('states')]: its entries in the order of
    [Object.entries], every value a number. *)
Definition States : Type := list (string * number).

(** What the component reads of [globals]. *)
Record Globals : Type := {
  states : States;
  (** [globals.get('params').visual.paths.displayPaths] *)
  displayPaths : JSValue
}.

(** The argument of the constructor. *)
Record PathConfig : Type := {
  cfg_fromId : JSValue;
  cfg_toId : JSValue;
  cfg_state : JSValue;
  cfg_visible : JSValue;
  (** [visuals.pathWidth], when the caller supplies one *)
  cfg_pathWidth : option JSValue;
  cfg_telemetryFrom : EndpointBox;
  cfg_telemetryTo : EndpointBox;
  cfg_globals : Globals
}.

(** [this.params] once the constructor has run. *)
Record Params : Type := {
  fromId : JSValue;
  toId : JSValue;
  params_state : JSValue;
  visible : JSValue;
  pathWidth : number;
  telemetryFrom : EndpointBox;
  telemetryTo : EndpointBox;
  globals : Globals
}.

(** The inline style of the element: the text last assigned to each of the
    five properties the component writes.  The element takes the text over
    as its declaration when it is valid CSS ([accepted_telemetry] below
    gives the numbers for which it is) and keeps its previous declaration
    otherwise. *)
Record Style : Type := {
  left : option string;
  top : option string;
  style_width : option string;
  transform : option string;
  borderTopWidth : option string
}.

Record DOM : Type := {
  classList : list string;
  style : Style
}.

Record Path : Type := {
  params : Params;
  state : JSValue;
  isReachableState : JSValue;
  isVisibleState : JSValue;
  dom : DOM;
  (** callbacks handed to [window.requestAnimationFrame] and not yet run;
      each of them removes the class [transparent] *)
  frameRequests : nat
}.

(** Field updates. *)
Definition set_state (v : JSValue) (p : Path) : Path :=
  {| params := params p; state := v;
     isReachableState := isReachableState p;
     isVisibleState := isVisibleState p; dom := dom p;
     frameRequests := frameRequests p |}.

Definition set_isReachableState (v : JSValue) (p : Path) : Path :=
  {| params := params p; state := state p; isReachableState := v;
     isVisibleState := isVisibleState p; dom := dom p;
     frameRequests := frameRequests p |}.

Definition set_isVisibleState (v : JSValue) (p : Path) : Path :=
  {| params := params p; state := state p;
     isReachableState := isReachableState p; isVisibleState := v;
     dom := dom p; frameRequests := frameRequests p |}.

Definition set_classList (cl : list string) (p : Path) : Path :=
  {| params := params p; state := state p;
     isReachableState := isReachableState p;
     isVisibleState := isVisibleState p;
     dom := {| classList := cl; style := style (dom p) |};
     frameRequests := frameRequests p |}.

Definition set_style (s : Style) (p : Path) : Path :=
  {| params := params p; state := state p;
     isReachableState := isReachableState p;
     isVisibleState := isVisibleState p;
     dom := {| classList := classList (dom p); style := s |};
     frameRequests := frameRequests p |}.

Definition set_frameRequests (n : nat) (p : Path) : Path :=
  {| params := params p; state := state p;
     isReachableState := isReachableState p;
     isVisibleState := isVisibleState p; dom := dom p;
     frameRequests := n |}.

(** ** The class list of the element

    A [DOMTokenList] is an ordered set: adding a token that is present and
    removing one that is absent change nothing.  [classList_add] and
    [classList_remove] are what [add] and [remove] do with a token that has
    a character and no white space ([valid_token] below); on any other token
    the element throws and changes nothing.  The three literal classes are
    such tokens, and so is the state tag of a key without white space
    ([valid_keys]). *)

Definition contains (tok : string) (cl : list string) : bool :=
  existsb (String.eqb tok) cl.

Definition classList_add (tok : string) (cl : list string) : list string :=
  if contains tok cl then cl else cl ++ [tok].

Definition classList_remove (tok : string) (cl : list string) : list string :=
  filter (fun c => negb (String.eqb tok c)) cl.

(** ** Exceptions *)

Inductive Error : Type := TypeError.

(** How a method call ends: normally, or by throwing; the object is shared
    with the caller, so what was written before the throw stays written. *)
Inductive Completion : Type :=
| Normal (p : Path)
| Throw (e : Error) (p : Path).

Definition object_of (c : Completion) : Path :=
  match c with Normal p | Throw _ p => p end.

(** ** Accessors *)

Definition getState (p : Path) : JSValue := state p.
Definition isReachable (p : Path) : JSValue := isReachableState p.
Definition isVisible (p : Path) : JSValue := isVisibleState p.

Definition getStageIds (p : Path) : JSValue * JSValue :=
  (fromId (params p), toId (params p)).

Definition connectsTo (stageId : JSValue) (p : Path) : bool :=
  strict_eq (fromId (params p)) stageId ||
  strict_eq (toId (params p)) stageId.

(** ** Showing and hiding *)

Definition show (p : Path) : Path :=
  if negb (ToBoolean (displayPaths (globals (params p)))) then p
  else
    let p := set_classList
               (classList_remove "display-none" (classList (dom p))) p in
    let p := set_frameRequests (S (frameRequests p)) p in
    set_isVisibleState (JSBool true) p.

Definition hide (p : Path) : Path :=
  let p := set_classList
             (classList_add "display-none" (classList (dom p))) p in
  let p := set_classList
             (classList_add "transparent" (classList (dom p))) p in
  set_isVisibleState (JSBool false) p.

(** The next animation frame runs the pending callbacks. *)
Definition animationFrame (p : Path) : Path :=
  match frameRequests p with
  | O => p
  | S _ =>
      set_frameRequests 0
        (set_classList
           (classList_remove "transparent" (classList (dom p))) p)
  end.

Definition setReachable (v : JSValue) (p : Path) : Path :=
  if negb (JSType_eqb (typeof v) TBoolean) then p
  else
    let p := set_isReachableState v p in
    if negb (ToBoolean (isReachable p)) then hide p else p.

(** ** The constructor *)

Definition base_class : string := "h5p-game-map-path".

(** The state tag of an enumeration key: [`h5p-game-map-path-${key}`]. *)
Definition state_tag (key : string) : string := "h5p-game-map-path-" ++ key.

(** [Object.entries(states).find((entry) => entry[0] === key)] *)
Definition find_entry (sts : States) (key : string)
  : option (string * number) :=
  find (fun entry => String.eqb (fst entry) key) sts.

(** Reading the property [key] of the enumeration object: [states.open],
    [states[key]]. *)
Definition get_prop (sts : States) (key : string) : JSValue :=
  match find_entry sts key with
  | Some entry => JSNum (snd entry)
  | None => JSUndefined
  end.

(** [Util.extend] lives in a service outside this file; all that is used of
    it here is that a supplied [visuals.pathWidth] replaces the default
    ['0.2']. *)
Definition extended_pathWidth (cfg : PathConfig) : JSValue :=
  match cfg_pathWidth cfg with
  | Some v => v
  | None => JSStr "0.2"
  end.

Definition constructor (cfg : PathConfig) : Path :=
  let this :=
    {| params :=
         {| fromId := cfg_fromId cfg;
            toId := cfg_toId cfg;
            params_state :=
              nullish (cfg_state cfg)
                      (get_prop (states (cfg_globals cfg)) "open");
            visible := cfg_visible cfg;
            pathWidth := parseFloat (extended_pathWidth cfg);
            telemetryFrom := cfg_telemetryFrom cfg;
            telemetryTo := cfg_telemetryTo cfg;
            globals := cfg_globals cfg |};
       state := JSUndefined;
       isReachableState := JSUndefined;
       isVisibleState := JSUndefined;
       dom := {| classList := [base_class];
                 style := {| left := None; top := None; style_width := None;
                             transform := None; borderTopWidth := None |} |};
       frameRequests := 0 |} in
  if negb (ToBoolean (visible (params this))) then hide this else show this.

(** ** Telemetry *)

(** The argument of [update]; an absent field is [undefined]. *)
Record UpdateParams : Type := {
  u_x : JSValue;
  u_y : JSValue;
  u_length : JSValue;
  u_angle : JSValue;
  u_width : JSValue
}.

(** [update(params)]: each field that is a number is assigned, as text, to
    its style property. *)
Definition update (u : UpdateParams) (p : Path) : Path :=
  let s := style (dom p) in
  let s :=
    match u_x u with
    | JSNum n =>
        {| left := Some (Number_toString n ++ "%"); top := top s;
           style_width := style_width s; transform := transform s;
           borderTopWidth := borderTopWidth s |}
    | _ => s
    end in
  let s :=
    match u_y u with
    | JSNum n =>
        {| left := left s; top := Some (Number_toString n ++ "%");
           style_width := style_width s; transform := transform s;
           borderTopWidth := borderTopWidth s |}
    | _ => s
    end in
  let s :=
    match u_length u with
    | JSNum n =>
        {| left := left s; top := top s;
           style_width := Some (Number_toString n ++ "px");
           transform := transform s; borderTopWidth := borderTopWidth s |}
    | _ => s
    end in
  let s :=
    match u_angle u with
    | JSNum n =>
        {| left := left s; top := top s; style_width := style_width s;
           transform := Some ("rotate(" ++ Number_toString n ++ "rad)");
           borderTopWidth := borderTopWidth s |}
    | _ => s
    end in
  let s :=
    match u_width u with
    | JSNum n =>
        {| left := left s; top := top s; style_width := style_width s;
           transform := transform s;
           borderTopWidth := Some (Number_toString n ++ "px") |}
    | _ => s
    end in
  set_style s p.

(** The pixel width of the box the path starts from: the [width] of
    [computePathTelemetry]. *)
Definition fromBoxPixelWidth (p : Path) (mapSize : MapSize) : number :=
  (parseFloat (width (telemetryFrom (params p))) / MATH_HUNDRED
   * ms_width mapSize)%num.

(** The pixel deltas [deltaXPx], [deltaYPx]. *)
Definition deltaXPx (p : Path) (mapSize : MapSize) : number :=
  (parseFloat (x (telemetryFrom (params p))) / MATH_HUNDRED
     * ms_width mapSize
   - parseFloat (x (telemetryTo (params p))) / MATH_HUNDRED
     * ms_width mapSize)%num.

Definition deltaYPx (p : Path) (mapSize : MapSize) : number :=
  (parseFloat (y (telemetryFrom (params p))) / MATH_HUNDRED
     * ms_height mapSize
   - parseFloat (y (telemetryTo (params p))) / MATH_HUNDRED
     * ms_height mapSize)%num.

(** The border width: [strokeWidth]. *)
Definition strokeWidth (boxWidth fraction : number) : number :=
  Math_min (Math_max MIN_WIDTH_PX (boxWidth * fraction)%num)
           (boxWidth * MAX_FACTOR)%num.

(** [null] is [None]. *)
Definition computePathTelemetry (p : Path) (mapSize : MapSize)
  : option ConnectorTelemetry :=
  if num_strict_eq (ms_height mapSize) Num.pzero
     || num_strict_eq (ms_width mapSize) Num.pzero
  then None
  else
    let fromX := x (telemetryFrom (params p)) in
    let fromY := y (telemetryFrom (params p)) in
    let fromWidth := width (telemetryFrom (params p)) in
    let fromHeight := height (telemetryFrom (params p)) in
    let wd := fromBoxPixelWidth p mapSize in
    let ht := (parseFloat fromHeight / MATH_HUNDRED * ms_height mapSize)%num in
    let dx := deltaXPx p mapSize in
    let dy := deltaYPx p mapSize in
    let angleOffset :=
      if num_ge (Math_sign dx) Num.pzero then Math_PI else Num.pzero in
    let angle := (Math_atan (dy / dx) + angleOffset)%num in
    let offsetToBorder_x :=
      (wd / MATH_TWO * Math_cos angle * MATH_HUNDRED / ms_width mapSize)%num in
    let offsetToBorder_y :=
      (ht / MATH_TWO * Math_sin angle * MATH_HUNDRED / ms_height mapSize)%num in
    let sw := strokeWidth wd (pathWidth (params p)) in
    let offsetPathStroke :=
      (sw / MATH_TWO * MATH_HUNDRED / ms_height mapSize)%num in
    let tx :=
      (parseFloat fromX + parseFloat fromWidth / MATH_TWO
       + offsetToBorder_x)%num in
    let ty :=
      (parseFloat fromY + parseFloat fromHeight / MATH_TWO
       + offsetToBorder_y - offsetPathStroke)%num in
    let len :=
      (Math_sqrt (Math_abs dx * Math_abs dx + Math_abs dy * Math_abs dy)
       - wd)%num in
    Some {| t_x := tx; t_y := ty; t_length := len; t_angle := angle;
            t_width := sw |}.

Definition resize (mapSize : MapSize) (p : Path) : Path :=
  match computePathTelemetry p mapSize with
  | None => p
  | Some telemetry =>
      update {| u_x := JSNum (t_x telemetry);
                u_y := JSNum (t_y telemetry);
                u_length := JSNum (t_length telemetry);
                u_angle := JSNum (t_angle telemetry);
                u_width := JSNum (t_width telemetry) |} p
  end.

(** ** The state *)

(** One turn of the loop over [Object.entries(states)]. *)
Definition toggle_tag (current : JSValue) (cl : list string)
  (entry : string * number) : list string :=
  if negb (strict_eq (JSNum (snd entry)) current)
  then classList_remove (state_tag (fst entry)) cl
  else classList_add (state_tag (fst entry)) cl.

Definition apply_state_tags (current : JSValue) (sts : States)
  (cl : list string) : list string :=
  fold_left (toggle_tag current) sts cl.

(** The value the [if ... else if ...] chain leaves in [newState] for a
    numeric [st]; [undefined] when no branch assigns it. *)
Definition newState_for (sts : States) (force : JSValue) (n : number)
  : JSValue :=
  if ToBoolean force then get_prop sts (Number_toString n)
  else if strict_eq (JSNum n) (get_prop sts "open")
       then get_prop sts "open"
  else if strict_eq (JSNum n) (get_prop sts "cleared")
       then get_prop sts "cleared"
  else JSUndefined.

(** [setState(st, {force})]; [force] is [undefined] when not given.  A
    string that is no key makes [find] return [undefined], and reading
    its element [1] throws. *)
Definition setState (st : JSValue) (force : JSValue) (p : Path)
  : Completion :=
  let sts := states (globals (params p)) in
  let resolved :=
    match st with
    | JSStr key =>
        match find_entry sts key with
        | Some entry => Some (JSNum (snd entry))
        | None => None
        end
    | _ => Some st
    end in
  match resolved with
  | None => Throw TypeError p
  | Some (JSNum n) =>
      let newState := newState_for sts force n in
      if negb (ToBoolean (state p)) || negb (strict_eq (state p) newState)
      then
        let p := set_state newState p in
        Normal (set_classList
                  (apply_state_tags (state p) sts (classList (dom p))) p)
      else Normal p
  | Some _ => Normal p
  end.

(** [reset({isInitial})]; [isInitial] is [undefined] when not given. *)
Definition reset (isInitial : JSValue) (p : Path) : Completion :=
  let p := setReachable (JSBool true) p in
  let st :=
    if ToBoolean isInitial then params_state (params p)
    else get_prop (states (globals (params p))) "open" in
  match setState st JSUndefined p with
  | Throw e p => Throw e p
  | Normal p =>
      Normal (if ToBoolean isInitial && ToBoolean (visible (params p))
              then show p else hide p)
  end.

(** ** Histories of calls *)

Inductive Call : Type :=
| CallSetReachable (v : JSValue)
| CallShow
| CallHide
| CallUpdate (u : UpdateParams)
| CallResize (mapSize : MapSize)
| CallReset (isInitial : JSValue)
| CallSetState (st force : JSValue)
| CallAnimationFrame.

Definition perform (c : Call) (p : Path) : Completion :=
  match c with
  | CallSetReachable v => Normal (setReachable v p)
  | CallShow => Normal (show p)
  | CallHide => Normal (hide p)
  | CallUpdate u => Normal (update u p)
  | CallResize mapSize => Normal (resize mapSize p)
  | CallReset isInitial => reset isInitial p
  | CallSetState st force => setState st force p
  | CallAnimationFrame => Normal (animationFrame p)
  end.

(** The object after a history of calls; a caller that catches an
    exception goes on with the object as the failed call left it. *)
Fixpoint run (cs : list Call) (p : Path) : Path :=
  match cs with
  | [] => p
  | c :: cs => run cs (object_of (perform c p))
  end.

(** Whether performing [c] on [p] executes [hide()]: directly, from
    [setReachable(false)], or from the [else] branch at the end of
    [reset]. *)
Definition calls_hide (c : Call) (p : Path) : bool :=
  match c with
  | CallHide => true
  | CallSetReachable (JSBool false) => true
  | CallReset isInitial =>
      match reset isInitial p with
      | Throw _ _ => false
      | Normal _ =>
          negb (ToBoolean isInitial && ToBoolean (visible (params p)))
      end
  | _ => false
  end.

Fixpoint history_calls_hide (cs : list Call) (p : Path) : bool :=
  match cs with
  | [] => false
  | c :: cs =>
      calls_hide c p || history_calls_hide cs (object_of (perform c p))
  end.

(** ** Well-formedness *)

Fixpoint distinct (l : list string) : bool :=
  match l with
  | [] => true
  | k :: l => negb (existsb (String.eqb k) l) && distinct l
  end.

(** An object has each key once. *)
Definition keys_distinct (sts : States) : bool := distinct (map fst sts).

(** No two keys of the enumeration name the same value. *)
Fixpoint values_distinct (sts : States) : bool :=
  match sts with
  | [] => true
  | entry :: sts =>
      negb (existsb (fun e => num_strict_eq (snd entry) (snd e)) sts)
      && values_distinct sts
  end.

(** The state tags on the element are those of the keys whose value is the
    stored state. *)
Definition tags_consistent (p : Path) : bool :=
  forallb
    (fun entry =>
       Bool.eqb (contains (state_tag (fst entry)) (classList (dom p)))
                (strict_eq (JSNum (snd entry)) (state p)))
    (states (globals (params p))).

(** The state tags that are on the element. *)
Definition active_tags (p : Path) : list string :=
  filter (fun tag => contains tag (classList (dom p)))
         (map (fun entry => state_tag (fst entry))
              (states (globals (params p)))).

End Runtime.

(** ** What the element accepts *)

(** ASCII white space: tab, line feed, form feed, carriage return, space. *)
Definition is_space (c : ascii) : bool :=
  let n := nat_of_ascii c in
  (n =? 9)%nat || (n =? 10)%nat || (n =? 12)%nat || (n =? 13)%nat
  || (n =? 32)%nat.

Fixpoint has_space (s : string) : bool :=
  match s with
  | EmptyString => false
  | String c rest => is_space c || has_space rest
  end.

(** The tokens that [classList.add] and [classList.remove] take without
    throwing. *)
Definition valid_token (tok : string) : bool :=
  negb (String.eqb tok "") && negb (has_space tok).

(** Every key of the enumeration gives a state tag that is a valid token:
    no key has white space. *)
Definition valid_keys (sts : States) : bool :=
  forallb (fun entry => valid_token (state_tag (fst entry))) sts.

(** A finite number with its unit is valid CSS for [left], [top] and
    [rotate()]; for [width] and [border-top-width] it must not be negative
    either. *)
Definition css_number (n : number) : bool := Num.is_finite n.

Definition css_length (n : number) : bool :=
  Num.is_finite n && num_ge n Num.pzero.

(** Telemetry every field of which the element takes over. *)
Definition accepted_telemetry (t : ConnectorTelemetry) : bool :=
  css_number (t_x t) && css_number (t_y t) && css_length (t_length t)
  && css_number (t_angle t) && css_length (t_width t).

(** The calls that, on a connector configured visible, run [hide()]:
    [hide()] itself, [setReachable(false)], and [reset] with a falsy
    [isInitial]. *)
Definition is_hiding_call (c : Call) : bool :=
  match c with
  | CallHide => true
  | CallSetReachable (JSBool false) => true
  | CallReset isInitial => negb (ToBoolean isInitial)
  | _ => false
  end.

(** Whether a state argument is a string that is no key of the
    enumeration: the argument on which the lookup of [setState] throws. *)
Definition is_unknown_name (sts : States) (st : JSValue) : bool :=
  match st with
  | JSStr key =>
      match find_entry sts key with
      | Some _ => false
      | None => true
      end
  | _ => false
  end.

(** The value a state argument stands for: the value of the key for a
    string, the argument itself otherwise. *)
Definition named_value (sts : States) (st : JSValue) : JSValue :=
  match st with
  | JSStr key => get_prop sts key
  | _ => st
  end.

(** ** A runtime to run examples with

    Printing is exact: it writes the full decimal expansion of the binary
    number, which agrees with [Number::toString] on the integers below
    10^21 and is longer than its shortest form elsewhere.  Parsing reads
    an optional sign, digits and an optional fraction and rounds once.  The
    three trigonometric functions are low-order approximations that are exact
    at the zeros, where the standard fixes the result. *)

Module Sample.

Definition print_Z (z : Z) : string :=
  DecimalString.NilZero.string_of_int (Z.to_int z).

Fixpoint strip_zeros (fuel : nat) (frac places : Z) : Z * Z :=
  match fuel with
  | O => (frac, places)
  | S fuel =>
      if (frac mod 10 =? 0) && (0 <? places)
      then strip_zeros fuel (frac / 10) (places - 1)
      else (frac, places)
  end.

Fixpoint zeros (n : nat) : string :=
  match n with
  | O => ""
  | S n => "0" ++ zeros n
  end.

Definition print_magnitude (m : positive) (e : Z) : string :=
  if 0 <=? e then print_Z (Zpos m * 2 ^ e)
  else
    let k := - e in
    let scaled := Zpos m * 5 ^ k in
    let '(frac, places) :=
      strip_zeros (Z.to_nat k) (scaled mod 10 ^ k) k in
    if frac =? 0 then print_Z (scaled / 10 ^ k)
    else
      let digits := print_Z frac in
      print_Z (scaled / 10 ^ k) ++ "."
      ++ zeros (Z.to_nat places - String.length digits) ++ digits.

Definition toString (n : number) : string :=
  match n with
  | S754_nan => "NaN"
  | S754_zero _ => "0"
  | S754_infinity s => if s then "-Infinity" else "Infinity"
  | S754_finite s m e =>
      (if s then "-" else "") ++ print_magnitude m e
  end.

Definition digit_of (c : ascii) : option Z :=
  let n := Z.of_nat (nat_of_ascii c) in
  if (48 <=? n) && (n <=? 57) then Some (n - 48) else None.

(** The digits at the head of [s]: their value after [acc], how many
    there are, and the rest. *)
Fixpoint read_digits (s : string) (acc count : Z) : Z * Z * string :=
  match s with
  | EmptyString => (acc, count, s)
  | String c rest =>
      match digit_of c with
      | Some d => read_digits rest (10 * acc + d) (count + 1)
      | None => (acc, count, s)
      end
  end.

Definition parse_unsigned (s : string) : option (Z * Z) :=
  let '(whole, n1, rest) := read_digits s 0 0 in
  match rest with
  | String "."%char rest' =>
      let '(all, n2, _) := read_digits rest' whole 0 in
      if (n1 + n2 =? 0) then None else Some (all, n2)
  | _ => if n1 =? 0 then None else Some (whole, 0)
  end.

Definition parse (s : string) : number :=
  let '(negative, body) :=
    match s with
    | String "-"%char rest => (true, rest)
    | String "+"%char rest => (false, rest)
    | _ => (false, s)
    end in
  match parse_unsigned body with
  | None => Num.NaN
  | Some (digits, places) =>
      let v := Num.ofRatio digits (10 ^ places) in
      if negative then SFopp v else v
  end.

Definition half_pi : number := (Math_PI / Num.ofZ 2)%num.

Definition atan (v : number) : number :=
  match v with
  | S754_nan | S754_zero _ => v
  | S754_infinity s => if s then SFopp half_pi else half_pi
  | S754_finite s _ _ =>
      let c := Num.ofRatio 9 32 in
      if Num.leb (Num.abs v) (Num.ofZ 1)
      then (v / (Num.ofZ 1 + c * (v * v)))%num
      else ((if s then SFopp half_pi else half_pi) - v / (v * v + c))%num
  end.

Definition cos (a : number) : number :=
  let a2 := (a * a)%num in
  (Num.ofZ 1 - a2 / Num.ofZ 2 + a2 * a2 / Num.ofZ 24)%num.

Definition sin (a : number) : number :=
  match a with
  | S754_zero _ => a
  | _ =>
      let a2 := (a * a)%num in
      (a - a * a2 / Num.ofZ 6 + a * (a2 * a2) / Num.ofZ 120)%num
  end.

Definition runtime : JSRuntime :=
  {| Math_atan := atan; Math_cos := cos; Math_sin := sin;
     parseFloat_string := parse; Number_toString := toString;
     Object_toString := fun _ => "[object Object]" |}.

End Sample.

(** ** Example data *)

Module Examples.

(** An enumeration of stage states of the kind the game map injects. *)
Definition stage_states : States :=
  [("locked", Num.ofZ 0); ("unlocking", Num.ofZ 1); ("open", Num.ofZ 2);
   ("opened", Num.ofZ 3); ("completed", Num.ofZ 4); ("cleared", Num.ofZ 5);
   ("sealed", Num.ofZ 6)].

(** An enumeration that numbers its states from [open = 0]. *)
Definition zero_based_states : States :=
  [("open", Num.ofZ 0); ("cleared", Num.ofZ 1)].

Definition box (bx by_ bw bh : Z) : EndpointBox :=
  {| x := JSNum (Num.ofZ bx); y := JSNum (Num.ofZ by_);
     width := JSNum (Num.ofZ bw); height := JSNum (Num.ofZ bh) |}.

Definition config (sts : States) (st vis display : JSValue)
  (from to : EndpointBox) (pw : option JSValue) : PathConfig :=
  {| cfg_fromId := JSStr "a"; cfg_toId := JSStr "b";
     cfg_state := st; cfg_visible := vis; cfg_pathWidth := pw;
     cfg_telemetryFrom := from; cfg_telemetryTo := to;
     cfg_globals := {| states := sts; displayPaths := display |} |}.

(** [from = {x:0,y:0,width:10,height:10}], [to = {x:50,y:0,width:10,
    height:10}], [pathWidth = 0.2] *)
Definition geometry_config : PathConfig :=
  config stage_states JSUndefined (JSBool true) (JSBool true)
         (box 0 0 10 10) (box 50 0 10 10)
         (Some (JSNum (Num.ofRatio 2 10))).

Definition geometry_mapSize : MapSize :=
  {| ms_width := Num.ofZ 1000; ms_height := Num.ofZ 1000 |}.

(** A box two percent wide on a map of 100 by 100 pixels. *)
Definition narrow_config : PathConfig :=
  config stage_states JSUndefined (JSBool true) (JSBool true)
         (box 0 0 2 2) (box 50 0 2 2)
         (Some (JSNum (Num.ofRatio 2 10))).

Definition small_mapSize : MapSize :=
  {| ms_width := Num.ofZ 100; ms_height := Num.ofZ 100 |}.

(** Configured [state = cleared], [visible = true]. *)
Definition cleared_visible (display : bool) : PathConfig :=
  config stage_states (JSNum (Num.ofZ 5)) (JSBool true) (JSBool display)
         (box 0 0 10 10) (box 50 0 10 10) None.

(** A map that is five pixels wide and not yet laid out in height, and
    one that is not laid out at all. *)
Definition flat_mapSize : MapSize :=
  {| ms_width := Num.ofZ 5; ms_height := Num.ofZ 0 |}.

Definition empty_mapSize : MapSize :=
  {| ms_width := Num.ofZ 0; ms_height := Num.ofZ 0 |}.

Definition geometry_path : Path :=
  @constructor Sample.runtime geometry_config.

Definition narrow_path : Path :=
  @constructor Sample.runtime narrow_config.

(** [geometry_path] after [setState('open')]. *)
Definition open_path : Path :=
  object_of (@setState Sample.runtime (JSStr "open") JSUndefined
               geometry_path).

Definition cleared_path (display : bool) : Path :=
  @constructor Sample.runtime (cleared_visible display).

(** Paths displayed, state [cleared], visible: [cleared_path true] after
    [reset({isInitial: true})]. *)
Definition cleared_shown_path : Path :=
  object_of (@reset Sample.runtime (JSBool true) (cleared_path true)).

(** A path on the enumeration that starts at [open = 0]. *)
Definition zero_based_path : Path :=
  @constructor Sample.runtime
    (config zero_based_states JSUndefined (JSBool true) (JSBool true)
            (box 0 0 10 10) (box 50 0 10 10) None).

(** The geometry example with [to] half a map further down as well. *)
Definition diagonal_config : PathConfig :=
  config stage_states JSUndefined (JSBool true) (JSBool true)
         (box 0 0 10 10) (box 50 50 10 10)
         (Some (JSNum (Num.ofRatio 2 10))).

(** From the upper right to the lower left. *)
Definition rising_config : PathConfig :=
  config stage_states JSUndefined (JSBool true) (JSBool true)
         (box 50 0 10 10) (box 0 50 10 10)
         (Some (JSNum (Num.ofRatio 2 10))).

(** Straight down: [to] below [from]. *)
Definition vertical_config : PathConfig :=
  config stage_states JSUndefined (JSBool true) (JSBool true)
         (box 0 0 10 10) (box 0 50 10 10)
         (Some (JSNum (Num.ofRatio 2 10))).

(** Configured [state = sealed], by value. *)
Definition sealed_path : Path :=
  @constructor Sample.runtime
    (config stage_states (JSNum (Num.ofZ 6)) (JSBool true) (JSBool true)
            (box 0 0 10 10) (box 50 0 10 10) None).

(** Configured [state = 'cleared'], by name. *)
Definition named_cleared_path : Path :=
  @constructor Sample.runtime
    (config stage_states (JSStr "cleared") (JSBool true) (JSBool true)
            (box 0 0 10 10) (box 50 0 10 10) None).

(** Both boxes at the same place. *)
Definition coincident_path : Path :=
  @constructor Sample.runtime
    (config stage_states JSUndefined (JSBool true) (JSBool true)
            (box 20 30 10 10) (box 20 30 10 10)
            (Some (JSNum (Num.ofRatio 2 10)))).

(** The geometry example, from right to left. *)
Definition leftward_path : Path :=
  @constructor Sample.runtime
    (config stage_states JSUndefined (JSBool true) (JSBool true)
            (box 50 0 10 10) (box 0 0 10 10)
            (Some (JSNum (Num.ofRatio 2 10)))).

(** A path width that is no number. *)
Definition nan_width_path : Path :=
  @constructor Sample.runtime
    (config stage_states JSUndefined (JSBool true) (JSBool true)
            (box 0 0 10 10) (box 50 0 10 10) (Some (JSStr "wide"))).

(** A configured state that the enumeration does not have. *)
Definition misnamed_path : Path :=
  @constructor Sample.runtime
    (config stage_states (JSStr "finished") (JSBool true) (JSBool true)
            (box 0 0 10 10) (box 50 0 10 10) None).

(** A history that shows, sets states by name and by value, resets and
    resizes. *)
Definition sample_history : list Call :=
  [CallSetState (JSStr "open") JSUndefined; CallShow;
   CallResize geometry_mapSize; CallSetReachable (JSBool false);
   CallSetState (JSNum (Num.ofZ 5)) JSUndefined; CallAnimationFrame;
   CallReset (JSBool true); CallSetState (JSNum (Num.ofZ 3)) (JSBool true);
   CallSetState (JSStr "cleared") JSUndefined].

End Examples.

(** * Properties *)

(** ** The order of numbers *)

Lemma compare_refl (a : number) :
  Num.isNaN a = false -> Num.compare a a = Some Eq.
Proof.
  destruct a as [s|s| |s m e]; simpl; try discriminate; intros _.
  - reflexivity.
  - destruct s; reflexivity.
  - rewrite Z.compare_refl.
    change (Pos.compare_cont Eq m m) with (Pos.compare m m).
    rewrite Pos.compare_refl. destruct s; reflexivity.
Qed.

Lemma leb_refl (a : number) : Num.isNaN a = false -> Num.leb a a = true.
Proof.
  intros H. unfold Num.leb, SFleb.
  change (SFcompare a a) with (Num.compare a a).
  now rewrite compare_refl.
Qed.

Lemma eqb_refl (a : number) : Num.isNaN a = false -> Num.eqb a a = true.
Proof.
  intros H. unfold Num.eqb, SFeqb.
  change (SFcompare a a) with (Num.compare a a).
  now rewrite compare_refl.
Qed.

Lemma compare_antisym (a b : number) :
  Num.compare b a = option_map CompOpp (Num.compare a b).
Proof.
  destruct a as [s1|s1| |s1 m1 e1], b as [s2|s2| |s2 m2 e2]; simpl;
    try reflexivity;
    try (destruct s1; reflexivity); try (destruct s2; reflexivity);
    try (destruct s1, s2; reflexivity).
  change (Pos.compare_cont Eq m1 m2) with (Pos.compare m1 m2).
  change (Pos.compare_cont Eq m2 m1) with (Pos.compare m2 m1).
  rewrite (Z.compare_antisym e1 e2), (Pos.compare_antisym m1 m2).
  destruct s1, s2; simpl; try reflexivity;
    destruct (e1 ?= e2); simpl; try reflexivity;
    destruct (m1 ?= m2)%positive; reflexivity.
Qed.

Lemma eqb_sym (a b : number) : Num.eqb a b = Num.eqb b a.
Proof.
  unfold Num.eqb, SFeqb.
  change SFcompare with Num.compare.
  rewrite (compare_antisym a b).
  destruct (Num.compare a b) as [[]|]; reflexivity.
Qed.

(** Equal numbers are the same number, the two zeros apart. *)
Lemma eqb_nonzero_eq (a b : number) :
  Num.eqb a b = true ->
  match a with S754_zero _ => False | _ => True end ->
  a = b.
Proof.
  unfold Num.eqb, SFeqb.
  destruct a as [s1|s1| |s1 m1 e1], b as [s2|s2| |s2 m2 e2]; simpl;
    try discriminate; try tauto;
    try (destruct s1; discriminate); try (destruct s2; discriminate).
  - destruct s1, s2; intros; try discriminate; reflexivity.
  - change (Pos.compare_cont Eq m1 m2) with (Pos.compare m1 m2).
    destruct s1, s2; try discriminate;
      destruct (Z.compare_spec e1 e2); try discriminate;
      destruct (Pos.compare_spec m1 m2); try discriminate;
      intros; subst; reflexivity.
Qed.

(** Below something that is below or equal: [c < a] and [a <= b] put [b]
    above [c]. *)
Lemma lt_le_gt (a b c : number) :
  Num.ltb c a = true -> Num.leb a b = true -> Num.compare b c = Some Gt.
Proof.
  unfold Num.ltb, Num.leb, SFltb, SFleb, Num.compare.
  destruct a as [s1|s1| |s1 m1 e1], b as [s2|s2| |s2 m2 e2],
    c as [s3|s3| |s3 m3 e3]; simpl; try discriminate;
    try (destruct s1; simpl; try discriminate);
    try (destruct s2; simpl; try discriminate);
    try (destruct s3; simpl; try discriminate);
    try reflexivity;
    change (Pos.compare_cont Eq) with Pos.compare;
    repeat match goal with
      | |- context [Z.compare ?u ?v] => destruct (Z.compare_spec u v)
      | |- context [Pos.compare ?u ?v] => destruct (Pos.compare_spec u v)
      end; simpl; try discriminate; try reflexivity; intros; subst; lia.
Qed.

(** Two numbers equal to a third are equal. *)
Lemma eqb_trans (a b c : number) :
  Num.eqb a c = true -> Num.eqb b c = true -> Num.eqb a b = true.
Proof.
  unfold Num.eqb, SFeqb.
  destruct a as [s1|s1| |s1 m1 e1], b as [s2|s2| |s2 m2 e2],
    c as [s3|s3| |s3 m3 e3]; simpl; try discriminate; try reflexivity;
    try (destruct s1; simpl; try discriminate);
    try (destruct s2; simpl; try discriminate);
    try (destruct s3; simpl; try discriminate);
    try reflexivity;
    change (Pos.compare_cont Eq) with Pos.compare;
    repeat match goal with
      | |- context [Z.compare ?u ?v] => destruct (Z.compare_spec u v)
      | |- context [Pos.compare ?u ?v] => destruct (Pos.compare_spec u v)
      end; simpl; try discriminate; try reflexivity; intros; subst; lia.
Qed.

(** ** Rounding never yields NaN *)

Lemma shr_1_nonneg (mrs : shr_record) :
  0 <= shr_m mrs -> 0 <= shr_m (shr_1 mrs).
Proof.
  destruct mrs as [m r s]; simpl.
  destruct m as [|q|q]; simpl; try lia; destruct q; simpl; lia.
Qed.

Lemma iter_shr_1_nonneg (n : positive) (mrs : shr_record) :
  0 <= shr_m mrs -> 0 <= shr_m (iter_pos shr_1 n mrs).
Proof.
  revert mrs.
  induction n as [n IH|n IH|]; simpl; intros mrs H.
  - apply IH, IH, shr_1_nonneg, H.
  - apply IH, IH, H.
  - apply shr_1_nonneg, H.
Qed.

Lemma shr_fexp_nonneg (m e : Z) (l : location) :
  0 <= m -> 0 <= shr_m (fst (shr_fexp Num.prec Num.emax m e l)).
Proof.
  intros H. unfold shr_fexp, shr.
  assert (H0 : 0 <= shr_m (shr_record_of_loc m l))
    by (destruct l as [|[]]; exact H).
  destruct (fexp Num.prec Num.emax (Zdigits2 m + e) - e); simpl;
    try exact H0.
  apply iter_shr_1_nonneg, H0.
Qed.

Lemma binary_round_aux_not_nan (s : bool) (m e : Z) (l : location) :
  0 <= m ->
  Num.isNaN (binary_round_aux Num.prec Num.emax s m e l) = false.
Proof.
  intros H. unfold binary_round_aux.
  pose proof (shr_fexp_nonneg m e l H) as H1.
  destruct (shr_fexp Num.prec Num.emax m e l) as [mrs' e']; simpl in H1.
  assert (H2 : 0 <= round_nearest_even (shr_m mrs') (loc_of_shr_record mrs')).
  { unfold round_nearest_even.
    destruct (loc_of_shr_record mrs') as [|[]]; try lia.
    destruct (Z.even (shr_m mrs')); lia. }
  pose proof (shr_fexp_nonneg _ e' loc_Exact H2) as H3.
  destruct (shr_fexp Num.prec Num.emax _ e' loc_Exact) as [mrs'' e''].
  simpl in H3.
  destruct (shr_m mrs'') as [|q|q]; try reflexivity.
  - destruct (e'' <=? Num.emax - Num.prec); reflexivity.
  - lia.
Qed.

Lemma mul_finite_not_nan (a b : number) :
  Num.is_finite a = true -> Num.is_finite b = true ->
  Num.isNaN (a * b)%num = false.
Proof.
  destruct a as [s1|s1| |s1 m1 e1], b as [s2|s2| |s2 m2 e2]; simpl;
    try discriminate; intros _ _; try reflexivity.
  apply binary_round_aux_not_nan. lia.
Qed.

(** ** [Math.max] and [Math.min] *)

Lemma max_lower (lo a : number) :
  Num.isNaN lo = false -> Num.isNaN a = false ->
  Num.leb lo (Math_max lo a) = true /\ Num.isNaN (Math_max lo a) = false.
Proof.
  intros Hlo Ha. unfold Math_max.
  destruct (Num.compare lo a) as [[]|] eqn:E.
  - destruct lo as [[]| | |]; split; auto using leb_refl;
      unfold Num.leb, SFleb; change SFcompare with Num.compare;
      now rewrite E.
  - split; [|exact Ha].
    unfold Num.leb, SFleb; change SFcompare with Num.compare; now rewrite E.
  - split; auto using leb_refl.
  - destruct lo, a; simpl in *; discriminate.
Qed.

Lemma min_upper (m b : number) :
  Num.isNaN m = false -> Num.isNaN b = false ->
  Num.leb (Math_min m b) b = true.
Proof.
  intros Hm Hb. unfold Math_min.
  destruct (Num.compare m b) as [[]|] eqn:E.
  - destruct m as [[]| | |]; auto using leb_refl;
      unfold Num.leb, SFleb; change SFcompare with Num.compare;
      now rewrite E.
  - unfold Num.leb, SFleb; change SFcompare with Num.compare; now rewrite E.
  - auto using leb_refl.
  - destruct m, b; simpl in *; discriminate.
Qed.

Lemma min_lower (lo m b : number) :
  Num.isNaN m = false -> Num.isNaN b = false ->
  Num.leb lo m = true -> Num.leb lo b = true ->
  Num.leb lo (Math_min m b) = true.
Proof.
  intros Hm Hb H1 H2. unfold Math_min.
  destruct (Num.compare m b) as [[]|] eqn:E; auto.
  - destruct m as [[]| | |]; auto.
  - destruct m, b; simpl in *; discriminate.
Qed.

Lemma min_takes_upper (lo m b : number) :
  Num.ltb b lo = true -> Num.leb lo m = true -> Math_min m b = b.
Proof.
  intros H1 H2. unfold Math_min.
  now rewrite (lt_le_gt lo m b H1 H2).
Qed.

Lemma unit_interval_finite (f : number) :
  Num.leb Num.pzero f = true -> Num.leb f (Num.ofZ 1) = true ->
  Num.is_finite f = true.
Proof.
  destruct f as [s|s| |s m e]; try reflexivity; try discriminate.
  destruct s; discriminate.
Qed.

Lemma positive_finite_shape (w : number) :
  Num.is_finite w = true -> Num.ltb Num.pzero w = true ->
  exists m e, w = S754_finite false m e.
Proof.
  destruct w as [s|s| |s m e]; try discriminate.
  destruct s; try discriminate. intros _ _. now exists m, e.
Qed.

Lemma strict_eq_zero_shape (a : number) :
  num_strict_eq a Num.pzero = true -> exists s, a = S754_zero s.
Proof.
  destruct a as [s|s| |s m e]; try discriminate.
  - intros _. now exists s.
  - destruct s; discriminate.
  - destruct s; discriminate.
Qed.

Lemma mul_zero_not_positive (a b : number) :
  num_strict_eq b Num.pzero = true -> Num.ltb Num.pzero (a * b)%num = false.
Proof.
  intros H. destruct (strict_eq_zero_shape b H) as [s ->].
  destruct a; reflexivity.
Qed.

Section Telemetry.

Context {rt : JSRuntime}.

(** The stroke width is the clamp, and the clamp obeys its upper bound
    first. *)
Lemma strokeWidth_bounds (w f : number) :
  Num.leb Num.pzero f = true -> Num.leb f (Num.ofZ 1) = true ->
  Num.is_finite w = true -> Num.ltb Num.pzero w = true ->
  Num.leb (strokeWidth w f) (w * MAX_FACTOR)%num = true /\
  (Num.leb MIN_WIDTH_PX (w * MAX_FACTOR)%num = true ->
   Num.leb MIN_WIDTH_PX (strokeWidth w f) = true) /\
  (Num.ltb (w * MAX_FACTOR)%num MIN_WIDTH_PX = true ->
   strokeWidth w f = (w * MAX_FACTOR)%num).
Proof.
  intros Hf0 Hf1 Hfin Hpos.
  pose proof (unit_interval_finite f Hf0 Hf1) as Hf.
  pose proof (mul_finite_not_nan w f Hfin Hf) as Ha.
  assert (Hb : Num.isNaN (w * MAX_FACTOR)%num = false)
    by (apply mul_finite_not_nan; [exact Hfin | reflexivity]).
  assert (Hlo : Num.isNaN MIN_WIDTH_PX = false) by reflexivity.
  destruct (max_lower MIN_WIDTH_PX (w * f)%num Hlo Ha) as [Hm1 Hm2].
  unfold strokeWidth. repeat split.
  - now apply min_upper.
  - intros H. now apply min_lower.
  - intros H. now apply (min_takes_upper MIN_WIDTH_PX).
Qed.

Lemma computePathTelemetry_some (p : Path) (mapSize : MapSize) :
  num_strict_eq (ms_height mapSize) Num.pzero = false ->
  num_strict_eq (ms_width mapSize) Num.pzero = false ->
  exists t, computePathTelemetry p mapSize = Some t /\
    t_width t = strokeWidth (fromBoxPixelWidth p mapSize)
                            (pathWidth (params p)) /\
    t_angle t =
      (Math_atan (deltaYPx p mapSize / deltaXPx p mapSize)
       + (if num_ge (Math_sign (deltaXPx p mapSize)) Num.pzero
          then Math_PI else Num.pzero))%num.
Proof.
  intros Hh Hw. unfold computePathTelemetry. rewrite Hh, Hw. simpl.
  eexists. split; [reflexivity|]. split; reflexivity.
Qed.

(** C1, as the code has it.  For a path-width fraction in [0,1] and a
    finite from-box pixel width [w > 0] (on a map of non-zero height, so
    that telemetry is returned), the stroke width never exceeds
    [MAX_FACTOR * w]; it is at least [MIN_WIDTH_PX] whenever
    [MAX_FACTOR * w] is, and it equals [MAX_FACTOR * w] when that bound lies
    below [MIN_WIDTH_PX]: the upper bound takes precedence. *)
Theorem stroke_width_clamp (p : Path) (mapSize : MapSize) :
  Num.leb Num.pzero (pathWidth (params p)) = true ->
  Num.leb (pathWidth (params p)) (Num.ofZ 1) = true ->
  Num.is_finite (fromBoxPixelWidth p mapSize) = true ->
  Num.ltb Num.pzero (fromBoxPixelWidth p mapSize) = true ->
  num_strict_eq (ms_height mapSize) Num.pzero = false ->
  exists t,
    computePathTelemetry p mapSize = Some t /\
    Num.leb (t_width t) (fromBoxPixelWidth p mapSize * MAX_FACTOR)%num = true /\
    (Num.leb MIN_WIDTH_PX (fromBoxPixelWidth p mapSize * MAX_FACTOR)%num = true ->
     Num.leb MIN_WIDTH_PX (t_width t) = true) /\
    (Num.ltb (fromBoxPixelWidth p mapSize * MAX_FACTOR)%num MIN_WIDTH_PX = true ->
     t_width t = (fromBoxPixelWidth p mapSize * MAX_FACTOR)%num).
Proof.
  intros Hf0 Hf1 Hfin Hpos Hh.
  assert (Hw : num_strict_eq (ms_width mapSize) Num.pzero = false).
  { destruct (num_strict_eq (ms_width mapSize) Num.pzero) eqn:E; auto.
    unfold fromBoxPixelWidth in Hpos.
    now rewrite (mul_zero_not_positive _ _ E) in Hpos. }
  destruct (computePathTelemetry_some p mapSize Hh Hw) as (t & Ht & Hwd & _).
  exists t. split; [exact Ht|]. rewrite Hwd.
  now apply strokeWidth_bounds.
Qed.

(** C4.  On a map whose width or height is zero the telemetry is [null],
    and [resize] leaves the element as it was. *)
Theorem zero_size_guard (p : Path) (mapSize : MapSize) :
  num_strict_eq (ms_width mapSize) Num.pzero = true \/
  num_strict_eq (ms_height mapSize) Num.pzero = true ->
  computePathTelemetry p mapSize = None /\ resize mapSize p = p.
Proof.
  intros H.
  assert (E : computePathTelemetry p mapSize = None).
  { unfold computePathTelemetry.
    destruct H as [H|H]; rewrite H; [now rewrite orb_true_r | reflexivity]. }
  split; [exact E|]. unfold resize. now rewrite E.
Qed.

End Telemetry.

(** ** The class list *)

Lemma contains_add (t t' : string) (cl : list string) :
  contains t (classList_add t' cl) = String.eqb t t' || contains t cl.
Proof.
  unfold classList_add, contains.
  destruct (existsb (String.eqb t') cl) eqn:E.
  - destruct (String.eqb_spec t t') as [->|_]; simpl; [exact E|reflexivity].
  - rewrite existsb_app. simpl. rewrite orb_false_r. apply orb_comm.
Qed.

Lemma contains_remove (t t' : string) (cl : list string) :
  contains t (classList_remove t' cl) = negb (String.eqb t t') && contains t cl.
Proof.
  unfold classList_remove, contains.
  induction cl as [|c cl IH]; simpl.
  - now rewrite andb_false_r.
  - destruct (String.eqb_spec t' c) as [->|Hc]; simpl.
    + rewrite IH. destruct (String.eqb c t ) eqn:E'.
      * apply String.eqb_eq in E'. subst. rewrite String.eqb_refl. reflexivity.
      * rewrite (String.eqb_sym t c), E'. reflexivity.
    + rewrite IH. destruct (String.eqb_spec t t') as [->|Ht]; simpl.
      * destruct (String.eqb_spec t' c); [contradiction|reflexivity].
      * reflexivity.
Qed.

Lemma add_present (t : string) (cl : list string) :
  contains t cl = true -> classList_add t cl = cl.
Proof. intros H. unfold classList_add. now rewrite H. Qed.

Lemma remove_absent (t : string) (cl : list string) :
  contains t cl = false -> classList_remove t cl = cl.
Proof.
  unfold contains, classList_remove.
  induction cl as [|c cl IH]; simpl; [reflexivity|].
  intros H. apply orb_false_iff in H as [H1 H2].
  rewrite H1. simpl. now rewrite IH.
Qed.

Lemma state_tag_eqb (k1 k2 : string) :
  String.eqb (state_tag k1) (state_tag k2) = String.eqb k1 k2.
Proof. reflexivity. Qed.

(** The other classes of the element are no state tags. *)
Lemma state_tag_not_base (k : string) :
  String.eqb (state_tag k) base_class = false /\
  String.eqb (state_tag k) "display-none" = false /\
  String.eqb (state_tag k) "transparent" = false.
Proof. repeat split; reflexivity. Qed.

Lemma contains_toggle (current : JSValue) (t : string) (cl : list string)
  (entry : string * number) :
  contains t (toggle_tag current cl entry) =
  if String.eqb t (state_tag (fst entry))
  then strict_eq (JSNum (snd entry)) current
  else contains t cl.
Proof.
  unfold toggle_tag.
  destruct (strict_eq (JSNum (snd entry)) current); simpl.
  - rewrite contains_add. now destruct (String.eqb t (state_tag (fst entry))).
  - rewrite contains_remove.
    now destruct (String.eqb t (state_tag (fst entry))).
Qed.

Lemma contains_apply_other (current : JSValue) (t : string) (sts : States) :
  forallb (fun entry => negb (String.eqb t (state_tag (fst entry)))) sts = true ->
  forall cl, contains t (apply_state_tags current sts cl) = contains t cl.
Proof.
  unfold apply_state_tags.
  induction sts as [|entry sts IH]; simpl; intros H cl; [reflexivity|].
  apply andb_true_iff in H as [H1 H2].
  rewrite (IH H2), contains_toggle.
  now destruct (String.eqb t (state_tag (fst entry))).
Qed.

(** The loop leaves the tags of exactly the keys whose value is the state,
    when no key occurs twice. *)
Lemma apply_state_tags_consistent (current : JSValue) (sts : States) :
  keys_distinct sts = true ->
  forall cl,
    forallb
      (fun entry =>
         Bool.eqb
           (contains (state_tag (fst entry)) (apply_state_tags current sts cl))
           (strict_eq (JSNum (snd entry)) current))
      sts = true.
Proof.
  unfold keys_distinct.
  induction sts as [|entry sts IH]; simpl; intros H cl; [reflexivity|].
  apply andb_true_iff in H as [H1 H2].
  apply andb_true_iff. split.
  - change (fold_left (toggle_tag current) sts (toggle_tag current cl entry))
      with (apply_state_tags current sts (toggle_tag current cl entry)).
    rewrite contains_apply_other.
    + rewrite contains_toggle, String.eqb_refl. apply eqb_reflx.
    + apply negb_true_iff in H1.
      clear -H1. induction sts as [|e sts IH]; [reflexivity|].
      cbn [map existsb] in H1. cbn [forallb].
      apply orb_false_iff in H1 as [Ha Hb].
      rewrite state_tag_eqb, Ha. now apply IH.
  - apply (IH H2).
Qed.

(** On a class list that agrees with the state the loop changes nothing. *)
Lemma apply_state_tags_fixed (current : JSValue) (cl : list string)
  (sts : States) :
  forallb
    (fun entry =>
       Bool.eqb (contains (state_tag (fst entry)) cl)
                (strict_eq (JSNum (snd entry)) current))
    sts = true ->
  apply_state_tags current sts cl = cl.
Proof.
  unfold apply_state_tags.
  induction sts as [|entry sts IH]; cbn [fold_left forallb]; intros H;
    [reflexivity|].
  apply andb_true_iff in H as [H1 H2].
  apply eqb_prop in H1.
  assert (E : toggle_tag current cl entry = cl).
  { unfold toggle_tag. rewrite <- H1.
    destruct (contains (state_tag (fst entry)) cl) eqn:Ec; simpl.
    - now apply add_present.
    - now apply remove_absent. }
  rewrite E. now apply IH.
Qed.

(** ** Values *)

Lemma truthy_strict_eq (a b : JSValue) :
  ToBoolean a = true -> strict_eq a b = true -> a = b.
Proof.
  destruct a as [| |x|x|x|x], b as [| |y|y|y|y]; simpl; try discriminate.
  - intros _ H. now apply eqb_prop in H as ->.
  - intros Ht H. f_equal. apply eqb_nonzero_eq; [exact H|].
    destruct x; try discriminate; exact I.
  - intros _ H. now apply String.eqb_eq in H as ->.
  - intros _ H. now apply Nat.eqb_eq in H as ->.
Qed.

Lemma forallb_pointwise {A : Type} (f g : A -> bool) (l : list A) :
  (forall a, f a = g a) -> forallb f l = forallb g l.
Proof.
  intros H. induction l as [|a l IH]; simpl; [reflexivity|].
  now rewrite H, IH.
Qed.

Section StateMachine.

Context {rt : JSRuntime}.

(** ** [setState], case by case *)

Lemma setState_number (n : number) (force : JSValue) (p : Path) :
  setState (JSNum n) force p =
  Normal
    (if negb (ToBoolean (state p))
        || negb (strict_eq (state p)
                   (newState_for (states (globals (params p))) force n))
     then
       set_classList
         (apply_state_tags
            (newState_for (states (globals (params p))) force n)
            (states (globals (params p))) (classList (dom p)))
         (set_state (newState_for (states (globals (params p))) force n) p)
     else p).
Proof.
  unfold setState.
  now destruct (negb (ToBoolean (state p)) || _).
Qed.

Lemma setState_known_key (key : string) (entry : string * number)
  (force : JSValue) (p : Path) :
  find_entry (states (globals (params p))) key = Some entry ->
  setState (JSStr key) force p = setState (JSNum (snd entry)) force p.
Proof. intros H. unfold setState. now rewrite H. Qed.

Lemma setState_unknown_key (key : string) (force : JSValue) (p : Path) :
  find_entry (states (globals (params p))) key = None ->
  setState (JSStr key) force p = Throw TypeError p.
Proof. intros H. unfold setState. now rewrite H. Qed.

Lemma setState_not_a_state (st force : JSValue) (p : Path) :
  match typeof st with TNumber | TString => False | _ => True end ->
  setState st force p = Normal p.
Proof. destruct st; simpl; intros H; try contradiction; reflexivity. Qed.

(** What a call with a number leaves behind. *)
Lemma setState_number_frame (n : number) (force : JSValue) (p : Path) :
  exists p',
    setState (JSNum n) force p = Normal p' /\
    state p' = newState_for (states (globals (params p))) force n /\
    params p' = params p /\
    isVisibleState p' = isVisibleState p /\
    isReachableState p' = isReachableState p /\
    style (dom p') = style (dom p) /\
    frameRequests p' = frameRequests p.
Proof.
  rewrite setState_number. eexists. split; [reflexivity|].
  destruct (negb (ToBoolean (state p))) eqn:Et; simpl.
  - repeat split.
  - destruct (strict_eq (state p) _) eqn:Es; simpl.
    + apply negb_false_iff in Et.
      now rewrite (truthy_strict_eq _ _ Et Es) at 1.
    + repeat split.
Qed.

Lemma setState_frame (st force : JSValue) (p : Path) :
  params (object_of (setState st force p)) = params p /\
  isVisibleState (object_of (setState st force p)) = isVisibleState p /\
  isReachableState (object_of (setState st force p)) = isReachableState p.
Proof.
  destruct st as [| |b|n|key|r]; try (repeat split; reflexivity).
  - destruct (setState_number_frame n force p) as (p' & E & _ & H1 & H2 & H3 & _).
    rewrite E. simpl. auto.
  - destruct (find_entry (states (globals (params p))) key) as [entry|] eqn:F.
    + rewrite (setState_known_key _ _ _ _ F).
      destruct (setState_number_frame (snd entry) force p)
        as (p' & E & _ & H1 & H2 & H3 & _).
      rewrite E. simpl. auto.
    + rewrite (setState_unknown_key _ _ _ F). simpl. auto.
Qed.

Lemma newState_for_open (sts : States) (force : JSValue) (vo : number) :
  ToBoolean force = false -> get_prop sts "open" = JSNum vo ->
  Num.isNaN vo = false ->
  newState_for sts force vo = JSNum vo.
Proof.
  intros Hf Ho Hn. unfold newState_for. rewrite Hf, Ho. simpl.
  unfold num_strict_eq. now rewrite eqb_refl.
Qed.

Lemma newState_for_cleared (sts : States) (force : JSValue) (vc : number) :
  ToBoolean force = false -> get_prop sts "cleared" = JSNum vc ->
  strict_eq (JSNum vc) (get_prop sts "open") = false ->
  Num.isNaN vc = false ->
  newState_for sts force vc = JSNum vc.
Proof.
  intros Hf Hc Ho Hn. unfold newState_for. rewrite Hf, Ho, Hc. simpl.
  unfold num_strict_eq. now rewrite eqb_refl.
Qed.


(** The unforced call with a value of the enumeration's [open] or [cleared]
    stores a value strictly equal to it. *)
Lemma newState_for_open_or_cleared (sts : States) (force : JSValue)
  (n : number) :
  ToBoolean force = false -> Num.isNaN n = false ->
  JSNum n = get_prop sts "open" \/ JSNum n = get_prop sts "cleared" ->
  strict_eq (newState_for sts force n) (JSNum n) = true.
Proof.
  intros Hf Hn H. unfold newState_for. rewrite Hf.
  destruct (strict_eq (JSNum n) (get_prop sts "open")) eqn:Eo.
  - destruct (get_prop sts "open"); try discriminate.
    simpl in *. unfold num_strict_eq in *. rewrite eqb_sym. exact Eo.
  - destruct H as [H|H].
    + rewrite <- H in Eo. simpl in Eo. unfold num_strict_eq in Eo.
      now rewrite eqb_refl in Eo.
    + pose proof (eqb_refl n Hn) as E.
      rewrite <- H. simpl. unfold num_strict_eq. rewrite E. simpl. exact E.
Qed.

(** ** The tags follow the state *)

Lemma tags_consistent_ext (p q : Path) :
  params q = params p -> state q = state p ->
  (forall k, contains (state_tag k) (classList (dom q))
             = contains (state_tag k) (classList (dom p))) ->
  tags_consistent q = tags_consistent p.
Proof.
  intros Hp Hs Hc. unfold tags_consistent. rewrite Hp, Hs.
  apply forallb_pointwise. intros entry. now rewrite Hc.
Qed.

Lemma tags_consistent_setState (n : number) (force : JSValue)
  (p p' : Path) :
  keys_distinct (states (globals (params p))) = true ->
  tags_consistent p = true ->
  setState (JSNum n) force p = Normal p' ->
  tags_consistent p' = true.
Proof.
  intros Hk Hc. rewrite setState_number.
  intros E. injection E as <-.
  destruct (negb (ToBoolean (state p)) || _); [|exact Hc].
  unfold tags_consistent. simpl.
  now apply apply_state_tags_consistent.
Qed.

(** A call that would store the state already stored changes nothing. *)
Lemma setState_same_state (n : number) (force : JSValue) (p : Path) :
  tags_consistent p = true ->
  state p = newState_for (states (globals (params p))) force n ->
  setState (JSNum n) force p = Normal p.
Proof.
  intros Hc Hs. rewrite setState_number. f_equal.
  destruct (negb (ToBoolean (state p)) || _); [|reflexivity].
  rewrite <- Hs.
  rewrite apply_state_tags_fixed by exact Hc.
  destruct p as [pa st re vi [cl sty] fr]. reflexivity.
Qed.

Lemma setState_twice (n : number) (force : JSValue) (p : Path) :
  keys_distinct (states (globals (params p))) = true ->
  tags_consistent p = true ->
  exists p1,
    setState (JSNum n) force p = Normal p1 /\
    tags_consistent p1 = true /\
    setState (JSNum n) force p1 = Normal p1.
Proof.
  intros Hk Hc.
  destruct (setState_number_frame n force p) as (p1 & E & Hs & Hp & _).
  exists p1. split; [exact E|].
  pose proof (tags_consistent_setState n force p p1 Hk Hc E) as Hc1.
  split; [exact Hc1|].
  apply setState_same_state; [exact Hc1|]. now rewrite Hp.
Qed.

(** The state tags on the element, read off the state. *)
Lemma active_tags_by_state (p : Path) :
  tags_consistent p = true ->
  active_tags p =
  map (fun entry => state_tag (fst entry))
      (filter (fun entry => strict_eq (JSNum (snd entry)) (state p))
              (states (globals (params p)))).
Proof.
  unfold tags_consistent, active_tags.
  induction (states (globals (params p))) as [|entry sts IH];
    cbn [forallb map filter]; intros H; [reflexivity|].
  apply andb_true_iff in H as [H1 H2]. apply eqb_prop in H1.
  rewrite H1, (IH H2).
  now destruct (strict_eq (JSNum (snd entry)) (state p)).
Qed.

(** When no two keys share a value, at most one entry has the stored
    state. *)
Lemma one_entry_per_value (sts : States) (current : JSValue)
  (k : string) (v : number) :
  values_distinct sts = true ->
  In (k, v) sts -> strict_eq (JSNum v) current = true ->
  filter (fun entry => strict_eq (JSNum (snd entry)) current) sts = [(k, v)].
Proof.
  intros Hd Hin Hv.
  destruct current as [| |b|c|x|r]; try discriminate.
  change (Num.eqb v c = true) in Hv.
  change (fun entry : string * number =>
            strict_eq (JSNum (snd entry)) (JSNum c))
    with (fun entry : string * number => Num.eqb (snd entry) c).
  assert (Hnone : forall (l : States) u,
            Num.eqb u c = true ->
            existsb (fun e => num_strict_eq u (snd e)) l = false ->
            filter (fun e => Num.eqb (snd e) c) l = []).
  { intros l u Hu. induction l as [|e l IH]; [reflexivity|].
    cbn [existsb filter]. intros H. apply orb_false_iff in H as [Ha Hb].
    unfold num_strict_eq in Ha.
    destruct (Num.eqb (snd e) c) eqn:E.
    - rewrite (eqb_trans u (snd e) c Hu E) in Ha. discriminate.
    - now apply IH. }
  induction sts as [|entry sts IH]; [contradiction|].
  cbn [values_distinct] in Hd. apply andb_true_iff in Hd as [Hd1 Hd2].
  apply negb_true_iff in Hd1.
  cbn [filter]. destruct Hin as [->|Hin].
  - cbn [snd] in *. rewrite Hv. now rewrite (Hnone sts v Hv Hd1).
  - destruct (Num.eqb (snd entry) c) eqn:E.
    + exfalso.
      assert (Hex : existsb (fun e => num_strict_eq (snd entry) (snd e)) sts
                    = true).
      { apply existsb_exists. exists (k, v). split; [exact Hin|].
        cbn [snd]. unfold num_strict_eq. now apply (eqb_trans _ _ c). }
      rewrite Hex in Hd1. discriminate.
    + now apply IH.
Qed.

(** Exclusive tagging, where it holds: once the element's tags follow the
    state, a stored state that is the value of a key has the tag of that
    key active and no other, if no two keys share a value. *)
Lemma exclusive_tag (p : Path) (k : string) (v : number) :
  tags_consistent p = true ->
  values_distinct (states (globals (params p))) = true ->
  In (k, v) (states (globals (params p))) ->
  strict_eq (JSNum v) (state p) = true ->
  active_tags p = [state_tag k].
Proof.
  intros Hc Hd Hin Hv.
  rewrite (active_tags_by_state p Hc).
  now rewrite (one_entry_per_value _ _ k v Hd Hin Hv).
Qed.


(** Repeating a call.  With the tags in step with the state, as every call
    leaves them:
    the second of two equal calls in a row changes nothing, neither the
    stored state nor a class of the element, for every number and every
    key of the enumeration, forced or not; a call whose new state is the
    stored one changes nothing; in particular the unforced call with the
    stored state changes nothing when that state is the enumeration's [open]
    or [cleared].  (When the stored state is falsy the loop over the tags
    runs again; it then finds every tag as it wants it.) *)
Theorem setState_idempotent (p : Path) :
  keys_distinct (states (globals (params p))) = true ->
  tags_consistent p = true ->
  (forall n force, exists p1,
      setState (JSNum n) force p = Normal p1 /\
      setState (JSNum n) force p1 = Normal p1) /\
  (forall key entry force,
      find_entry (states (globals (params p))) key = Some entry ->
      exists p1,
        setState (JSStr key) force p = Normal p1 /\
        setState (JSStr key) force p1 = Normal p1) /\
  (forall n force,
      state p = newState_for (states (globals (params p))) force n ->
      setState (JSNum n) force p = Normal p) /\
  (forall n force,
      ToBoolean force = false -> Num.isNaN n = false ->
      state p = JSNum n ->
      get_prop (states (globals (params p))) "open" = JSNum n \/
      (get_prop (states (globals (params p))) "cleared" = JSNum n /\
       strict_eq (JSNum n) (get_prop (states (globals (params p))) "open")
       = false) ->
      setState (JSNum n) force p = Normal p).
Proof.
  intros Hk Hc. split; [|split; [|split]].
  - intros n force.
    destruct (setState_twice n force p Hk Hc) as (p1 & E1 & _ & E2).
    now exists p1.
  - intros key entry force F.
    destruct (setState_twice (snd entry) force p Hk Hc) as (p1 & E1 & _ & E2).
    exists p1. rewrite (setState_known_key _ _ _ _ F). split; [exact E1|].
    destruct (setState_number_frame (snd entry) force p)
      as (p1' & E1' & _ & Hp & _).
    rewrite E1 in E1'. injection E1' as <-.
    rewrite setState_known_key with (entry := entry); [exact E2|].
    now rewrite Hp.
  - intros n force. now apply setState_same_state.
  - intros n force Hf Hn Hs [Ho|[Hcl Ho]];
      apply setState_same_state; try exact Hc; rewrite Hs; symmetry.
    + now apply newState_for_open.
    + now apply newState_for_cleared.
Qed.

(** ** What the calls keep *)

Lemma show_hidden_paths (p : Path) :
  ToBoolean (displayPaths (globals (params p))) = false -> show p = p.
Proof. intros H. unfold show. now rewrite H. Qed.

Lemma show_displayed_paths (p : Path) :
  ToBoolean (displayPaths (globals (params p))) = true ->
  isVisibleState (show p) = JSBool true.
Proof. intros H. unfold show. now rewrite H. Qed.

Lemma show_frame (p : Path) :
  params (show p) = params p /\ state (show p) = state p /\
  isReachableState (show p) = isReachableState p.
Proof.
  unfold show.
  destruct (negb (ToBoolean (displayPaths (globals (params p)))));
    repeat split.
Qed.

Lemma setReachable_frame (v : JSValue) (p : Path) :
  params (setReachable v p) = params p /\
  state (setReachable v p) = state p.
Proof. destruct v as [| |[]| | |]; split; reflexivity. Qed.

Lemma perform_params (c : Call) (p : Path) :
  params (object_of (perform c p)) = params p.
Proof.
  destruct c as [v| | |u|mapSize|isInitial|st force|]; simpl.
  - apply setReachable_frame.
  - apply show_frame.
  - reflexivity.
  - reflexivity.
  - unfold resize. now destruct (computePathTelemetry p mapSize).
  - unfold reset.
    destruct (setState_frame
                (if ToBoolean isInitial
                 then params_state (params (setReachable (JSBool true) p))
                 else get_prop
                        (states (globals (params (setReachable (JSBool true) p))))
                        "open")
                JSUndefined (setReachable (JSBool true) p)) as (H & _).
    destruct (setState _ JSUndefined (setReachable (JSBool true) p))
      as [p1|e p1]; simpl in *; [|exact H].
    destruct (ToBoolean isInitial && ToBoolean (visible (params p1)));
      [rewrite (proj1 (show_frame p1))|]; exact H.
  - apply setState_frame.
  - unfold animationFrame. now destruct (frameRequests p).
Qed.

Lemma tags_consistent_hide (p : Path) :
  tags_consistent (hide p) = tags_consistent p.
Proof.
  apply tags_consistent_ext; try reflexivity.
  intros k. simpl. now rewrite !contains_add.
Qed.

Lemma tags_consistent_show (p : Path) :
  tags_consistent (show p) = tags_consistent p.
Proof.
  unfold show.
  destruct (negb (ToBoolean (displayPaths (globals (params p)))));
    [reflexivity|].
  apply tags_consistent_ext; try reflexivity.
  intros k. simpl. now rewrite contains_remove.
Qed.

Lemma tags_consistent_setState_any (st force : JSValue) (p : Path) :
  keys_distinct (states (globals (params p))) = true ->
  tags_consistent p = true ->
  tags_consistent (object_of (setState st force p)) = true.
Proof.
  intros Hk Hc.
  destruct st as [| |b|n|key|r]; try exact Hc.
  - destruct (setState_number_frame n force p) as (p' & E & _).
    rewrite E. simpl. exact (tags_consistent_setState n force p p' Hk Hc E).
  - destruct (find_entry (states (globals (params p))) key) as [entry|] eqn:F.
    + rewrite (setState_known_key _ _ _ _ F).
      destruct (setState_number_frame (snd entry) force p) as (p' & E & _).
      rewrite E. simpl.
      exact (tags_consistent_setState (snd entry) force p p' Hk Hc E).
    + rewrite (setState_unknown_key _ _ _ F). exact Hc.
Qed.

(** The constructor puts no state tag on the element and stores no
    state. *)
Lemma tags_consistent_constructor (cfg : PathConfig) :
  tags_consistent (constructor cfg) = true.
Proof.
  unfold constructor.
  match goal with
  | |- tags_consistent (if _ then hide ?q else show ?q) = true =>
      assert (H : tags_consistent q = true)
  end.
  { unfold tags_consistent. simpl.
    induction (states (cfg_globals cfg)) as [|entry sts IH]; simpl;
      [reflexivity|exact IH]. }
  destruct (negb _).
  - now rewrite tags_consistent_hide.
  - now rewrite tags_consistent_show.
Qed.

(** Every call keeps the tags in step with the state. *)
Lemma tags_consistent_perform (c : Call) (p : Path) :
  keys_distinct (states (globals (params p))) = true ->
  tags_consistent p = true ->
  tags_consistent (object_of (perform c p)) = true.
Proof.
  intros Hk Hc.
  destruct c as [v| | |u|mapSize|isInitial|st force|]; simpl.
  - destruct v as [| |[]| | |]; try exact Hc.
    change (setReachable (JSBool false) p)
      with (hide (set_isReachableState (JSBool false) p)).
    now rewrite tags_consistent_hide.
  - now rewrite tags_consistent_show.
  - now rewrite tags_consistent_hide.
  - exact Hc.
  - unfold resize. now destruct (computePathTelemetry p mapSize).
  - unfold reset.
    set (p0 := setReachable (JSBool true) p).
    assert (Hc0 : tags_consistent p0 = true) by exact Hc.
    assert (Hk0 : keys_distinct (states (globals (params p0))) = true)
      by exact Hk.
    pose proof (tags_consistent_setState_any
                  (if ToBoolean isInitial then params_state (params p0)
                   else get_prop (states (globals (params p0))) "open")
                  JSUndefined p0 Hk0 Hc0) as H.
    destruct (setState _ JSUndefined p0) as [p1|e p1]; simpl in *;
      [|exact H].
    destruct (ToBoolean isInitial && ToBoolean (visible (params p1))).
    + now rewrite tags_consistent_show.
    + now rewrite tags_consistent_hide.
  - now apply tags_consistent_setState_any.
  - unfold animationFrame. destruct (frameRequests p); [exact Hc|].
    transitivity (tags_consistent p); [|exact Hc].
    apply tags_consistent_ext; try reflexivity.
    intros k. simpl. now rewrite contains_remove.
Qed.

(** ** Reachability and visibility *)

(** C8.  A value that is no boolean leaves the connector as it was; [false]
    hides it at once, whatever its state and visibility were: [isVisible()]
    is [false] and the element carries [display-none] and [transparent],
    with no frame awaited. *)
Theorem setReachable_guard (p : Path) :
  (forall v, JSType_eqb (typeof v) TBoolean = false -> setReachable v p = p)
  /\ isVisible (setReachable (JSBool false) p) = JSBool false
  /\ isReachable (setReachable (JSBool false) p) = JSBool false
  /\ contains "display-none"
       (classList (dom (setReachable (JSBool false) p))) = true
  /\ contains "transparent"
       (classList (dom (setReachable (JSBool false) p))) = true
  /\ (forall tok,
        contains tok (classList (dom p)) = true ->
        contains tok (classList (dom (setReachable (JSBool false) p))) = true)
  /\ frameRequests (setReachable (JSBool false) p) = frameRequests p.
Proof.
  split; [intros v H; destruct v; try reflexivity; discriminate|].
  split; [reflexivity|]. split; [reflexivity|].
  change (setReachable (JSBool false) p)
    with (hide (set_isReachableState (JSBool false) p)).
  split; [simpl; rewrite !contains_add; reflexivity|].
  split; [simpl; rewrite !contains_add; reflexivity|].
  split; [|reflexivity].
  intros tok H. simpl. rewrite !contains_add, H.
  now rewrite !orb_true_r.
Qed.

(** ** [reset] *)

Lemma reset_unfold (isInitial : JSValue) (p : Path) :
  reset isInitial p =
  match setState
          (if ToBoolean isInitial then params_state (params p)
           else get_prop (states (globals (params p))) "open")
          JSUndefined (set_isReachableState (JSBool true) p) with
  | Throw e q => Throw e q
  | Normal q =>
      Normal (if ToBoolean isInitial && ToBoolean (visible (params q))
              then show q else hide q)
  end.
Proof. reflexivity. Qed.

(** The state that [setState] leaves does not depend on the reachability
    stored before. *)
Lemma setState_after_reachable (st force v : JSValue) (p : Path) :
  state (object_of (setState st force (set_isReachableState v p)))
  = state (object_of (setState st force p)).
Proof.
  assert (Hn : forall n,
             state (object_of (setState (JSNum n) force
                                 (set_isReachableState v p)))
             = state (object_of (setState (JSNum n) force p))).
  { intros n.
    destruct (setState_number_frame n force (set_isReachableState v p))
      as (q & E & Hs & _).
    destruct (setState_number_frame n force p) as (q' & E' & Hs' & _).
    rewrite E, E'. simpl. now rewrite Hs, Hs'. }
  destruct st as [| |b|n|key|r]; try reflexivity.
  - apply Hn.
  - change (states (globals (params (set_isReachableState v p))))
      with (states (globals (params p))) in *.
    destruct (find_entry (states (globals (params p))) key) as [entry|] eqn:F.
    + rewrite (setState_known_key key entry force p F).
      rewrite (setState_known_key key entry force
                 (set_isReachableState v p) F).
      apply Hn.
    + rewrite (setState_unknown_key key force p F).
      now rewrite (setState_unknown_key key force
                     (set_isReachableState v p) F).
Qed.

(** [setState] returns unless its argument is a name that the enumeration
    does not have. *)
Lemma setState_returns (st force : JSValue) (p : Path) :
  is_unknown_name (states (globals (params p))) st = false ->
  exists q, setState st force p = Normal q.
Proof.
  destruct st as [| |b|n|key|r]; simpl; intros H;
    try (eexists; reflexivity).
  - destruct (setState_number_frame n force p) as (q & E & _). now exists q.
  - destruct (find_entry (states (globals (params p))) key) as [entry|] eqn:F;
      [|discriminate].
    rewrite (setState_known_key key entry force p F).
    destruct (setState_number_frame (snd entry) force p) as (q & E & _).
    now exists q.
Qed.

(** The unforced [setState] with the value or the name of the enumeration's
    [open] or [cleared] stores a state strictly equal to that value. *)
Lemma setState_stores_open_or_cleared (st : JSValue) (n : number)
  (p : Path) :
  is_unknown_name (states (globals (params p))) st = false ->
  named_value (states (globals (params p))) st = JSNum n ->
  Num.isNaN n = false ->
  JSNum n = get_prop (states (globals (params p))) "open" \/
  JSNum n = get_prop (states (globals (params p))) "cleared" ->
  strict_eq (state (object_of (setState st JSUndefined p))) (JSNum n) = true.
Proof.
  intros Hu Hv Hn Hoc.
  assert (Hnum : strict_eq (state (object_of (setState (JSNum n) JSUndefined p)))
                   (JSNum n) = true).
  { destruct (setState_number_frame n JSUndefined p) as (q & E & Hs & _).
    rewrite E. simpl. rewrite Hs.
    now apply newState_for_open_or_cleared. }
  destruct st as [| |b|m|key|r]; try discriminate.
  - simpl in Hv. injection Hv as ->. exact Hnum.
  - simpl in Hu, Hv. unfold get_prop in Hv.
    destruct (find_entry (states (globals (params p))) key) as [entry|] eqn:F;
      [|discriminate].
    injection Hv as Hv.
    rewrite (setState_known_key key entry JSUndefined p F). now rewrite Hv.
Qed.

(** C9, as the code has it.  On an enumeration whose [open] is a number and
    whose keys have no white space: [reset] makes the connector reachable
    in every case.  Without [isInitial] it stores [open] and hides the
    connector.  With [isInitial] it passes the configured state to the
    unforced [setState] and, unless that state is a name the enumeration
    does not have, goes on: it hides the connector when it was not
    configured visible, and otherwise calls [show()], which makes it visible
    when the [displayPaths] flag is on and leaves the visibility as it was
    when the flag is off; the stored state is the one the unforced
    [setState] leaves, which is strictly equal to the configured one when
    that is the enumeration's [open] or [cleared], by value or by name. *)
Theorem reset_behaviour (p : Path) (vo : number) :
  valid_keys (states (globals (params p))) = true ->
  get_prop (states (globals (params p))) "open" = JSNum vo ->
  Num.isNaN vo = false ->
  (forall isInitial,
      isReachable (object_of (reset isInitial p)) = JSBool true) /\
  (forall isInitial,
      ToBoolean isInitial = false ->
      exists p',
        reset isInitial p = Normal p' /\
        getState p' = JSNum vo /\
        isVisible p' = JSBool false) /\
  (forall isInitial,
      ToBoolean isInitial = true ->
      is_unknown_name (states (globals (params p))) (params_state (params p))
      = false ->
      exists p',
        reset isInitial p = Normal p' /\
        getState p'
        = getState (object_of (setState (params_state (params p))
                                 JSUndefined p)) /\
        isVisible p' =
          if ToBoolean (visible (params p))
          then if ToBoolean (displayPaths (globals (params p)))
               then JSBool true else isVisible p
          else JSBool false) /\
  (forall isInitial n,
      ToBoolean isInitial = true ->
      is_unknown_name (states (globals (params p))) (params_state (params p))
      = false ->
      named_value (states (globals (params p))) (params_state (params p))
      = JSNum n ->
      Num.isNaN n = false ->
      JSNum n = get_prop (states (globals (params p))) "open" \/
      JSNum n = get_prop (states (globals (params p))) "cleared" ->
      exists p',
        reset isInitial p = Normal p' /\
        strict_eq (getState p') (JSNum n) = true).
Proof.
  intros _ Ho Hn.
  assert (Hinit : forall isInitial,
             ToBoolean isInitial = true ->
             is_unknown_name (states (globals (params p)))
               (params_state (params p)) = false ->
             exists p',
               reset isInitial p = Normal p' /\
               getState p'
               = getState (object_of (setState (params_state (params p))
                                        JSUndefined p)) /\
               isVisible p' =
                 if ToBoolean (visible (params p))
                 then if ToBoolean (displayPaths (globals (params p)))
                      then JSBool true else isVisible p
                 else JSBool false).
  { intros isInitial Hi Hu. rewrite reset_unfold, Hi.
    destruct (setState_returns (params_state (params p)) JSUndefined
                (set_isReachableState (JSBool true) p) Hu) as (q & E).
    pose proof (setState_frame (params_state (params p)) JSUndefined
                  (set_isReachableState (JSBool true) p)) as (Hp & Hv & _).
    pose proof (setState_after_reachable (params_state (params p))
                  JSUndefined (JSBool true) p) as Hs.
    rewrite E in *. simpl in Hp, Hv, Hs. rewrite Hp. cbn [andb].
    eexists. split; [reflexivity|]. unfold getState. rewrite <- Hs.
    destruct (ToBoolean (visible (params p))).
    - split; [apply show_frame|].
      destruct (ToBoolean (displayPaths (globals (params p)))) eqn:Ed.
      + apply show_displayed_paths. now rewrite Hp.
      + rewrite show_hidden_paths by (now rewrite Hp). exact Hv.
    - split; reflexivity. }
  split; [|split; [|split]].
  - intros isInitial. rewrite reset_unfold.
    match goal with
    | |- context [setState ?st ?f ?q] =>
        destruct (setState_frame st f q) as (_ & _ & Hr);
        destruct (setState st f q) as [q1|e q1]; simpl in *
    end; [|exact Hr].
    destruct (ToBoolean isInitial && ToBoolean (visible (params q1)));
      [|exact Hr].
    unfold isReachable. now rewrite (proj2 (proj2 (show_frame q1))).
  - intros isInitial Hi. rewrite reset_unfold, Hi, Ho.
    destruct (setState_number_frame vo JSUndefined
                (set_isReachableState (JSBool true) p))
      as (q & E & Hs & _).
    rewrite E. simpl. eexists. split; [reflexivity|]. split; [|reflexivity].
    unfold getState. simpl. rewrite Hs. simpl.
    now apply newState_for_open.
  - exact Hinit.
  - intros isInitial n Hi Hu Hv Hnn Hoc.
    destruct (Hinit isInitial Hi Hu) as (p' & E & Hs & _).
    exists p'. split; [exact E|]. rewrite Hs.
    now apply setState_stores_open_or_cleared.
Qed.

(** ** Visibility when paths are not displayed *)

Lemma perform_visibility (c : Call) (p : Path) :
  ToBoolean (displayPaths (globals (params p))) = false ->
  isVisible (object_of (perform c p)) =
  if calls_hide c p then JSBool false else isVisible p.
Proof.
  intros Hd.
  destruct c as [v| | |u|mapSize|isInitial|st force|]; simpl.
  - destruct v as [| |[]| | |]; reflexivity.
  - now rewrite show_hidden_paths.
  - reflexivity.
  - reflexivity.
  - unfold resize. now destruct (computePathTelemetry p mapSize).
  - rewrite reset_unfold.
    match goal with
    | |- context [setState ?st ?f ?q] =>
        destruct (setState_frame st f q) as (Hp & Hv & _);
        destruct (setState st f q) as [q1|e q1]; simpl in *
    end; [|exact Hv].
    rewrite Hp.
    destruct (ToBoolean isInitial && ToBoolean (visible (params p))); simpl.
    + rewrite show_hidden_paths by (now rewrite Hp). exact Hv.
    + reflexivity.
  - apply setState_frame.
  - unfold animationFrame. now destruct (frameRequests p).
Qed.

Lemma run_visibility (cs : list Call) (p : Path) :
  ToBoolean (displayPaths (globals (params p))) = false ->
  isVisible (run cs p) =
  if history_calls_hide cs p then JSBool false else isVisible p.
Proof.
  revert p. induction cs as [|c cs IH]; intros p Hd; simpl; [reflexivity|].
  rewrite IH by (now rewrite perform_params).
  rewrite perform_visibility by exact Hd.
  destruct (calls_hide c p); simpl; [|reflexivity].
  now destruct (history_calls_hide cs _).
Qed.

(** With the connector configured visible, a [reset] runs [hide()] exactly
    when [isInitial] is falsy. *)
Lemma reset_calls_hide (isInitial : JSValue) (p : Path) :
  ToBoolean (visible (params p)) = true ->
  calls_hide (CallReset isInitial) p = negb (ToBoolean isInitial).
Proof.
  intros Hv. unfold calls_hide. rewrite reset_unfold, Hv.
  destruct (ToBoolean isInitial); simpl.
  - now destruct (setState _ JSUndefined _).
  - unfold get_prop.
    destruct (find_entry (states (globals (params p))) "open") as [entry|].
    + destruct (setState_number_frame (snd entry) JSUndefined
                  (set_isReachableState (JSBool true) p)) as (q & E & _).
      now rewrite E.
    + reflexivity.
Qed.

Lemma history_calls_hide_by_call (cs : list Call) (p : Path) :
  ToBoolean (visible (params p)) = true ->
  history_calls_hide cs p = existsb is_hiding_call cs.
Proof.
  revert p. induction cs as [|c cs IH]; intros p Hv; [reflexivity|].
  cbn [history_calls_hide existsb].
  rewrite IH by (now rewrite perform_params). f_equal.
  destruct c as [v| | |u|mapSize|isInitial|st force|]; try reflexivity.
  now apply reset_calls_hide.
Qed.

(** C10, as the code has it.  Constructed visible while [displayPaths] is
    off (the keys of the enumeration without white space), the connector has
    the visibility [undefined]; after a history of calls it still has when
    none of them is [hide()], [setReachable(false)] or a [reset] with falsy
    [isInitial], and it has [false] when one of them is: these are the
    calls that run [hide()]. *)
Theorem visibility_undefined_until_hide (cfg : PathConfig) :
  ToBoolean (cfg_visible cfg) = true ->
  ToBoolean (displayPaths (cfg_globals cfg)) = false ->
  valid_keys (states (cfg_globals cfg)) = true ->
  isVisible (constructor cfg) = JSUndefined /\
  (forall cs,
      isVisible (run cs (constructor cfg)) =
      if existsb is_hiding_call cs then JSBool false else JSUndefined) /\
  (forall cs,
      history_calls_hide cs (constructor cfg) = existsb is_hiding_call cs).
Proof.
  intros Hv Hd _.
  assert (Hvis : ToBoolean (visible (params (constructor cfg))) = true).
  { unfold constructor. simpl. rewrite Hv. simpl.
    now rewrite show_hidden_paths. }
  assert (E : isVisible (constructor cfg) = JSUndefined).
  { unfold constructor. simpl. rewrite Hv. simpl.
    now rewrite show_hidden_paths. }
  split; [exact E|]. split.
  - intros cs. rewrite <- (history_calls_hide_by_call cs _ Hvis).
    rewrite <- E. apply run_visibility.
    unfold constructor. simpl. rewrite Hv. simpl.
    now rewrite show_hidden_paths.
  - intros cs. now apply history_calls_hide_by_call.
Qed.

End StateMachine.

(** ** The angle *)

Lemma sign_ge_zero (d : number) :
  num_ge (Math_sign d) Num.pzero = num_ge d Num.pzero.
Proof. destruct d as [s|s| |s m e]; try destruct s; reflexivity. Qed.

Section Geometry.

Context {rt : JSRuntime}.

(** C5.  The angle is [atan(dy/dx)] plus [Math.PI] when [sign(dx) >= 0],
    which is when [dx >= 0], and plus [0] otherwise, where [dx] is the pixel
    x of [from] minus that of [to] (a percentage of the map width each) and
    [dy] the pixel y of [from] minus that of [to] (a percentage of the map
    height each).  On a map of 1000 by 1000 with boxes of 10 by 10 and the
    fraction 0.2: from (0,0) to (50,0) the angle is [0] and the stroke width
    [20]; from (0,0) to (50,50) the angle is [atan(1) + 0]; from (50,0) to
    (0,50) it is [atan(-1) + Math.PI]; from (0,0) to (0,50), where [dx] is
    [0], it is [atan(-Infinity) + Math.PI].  [Math.atan] is taken to map
    [-0] to [-0], as the standard requires. *)
Theorem angle_and_stroke_example :
  Math_atan Num.nzero = Num.nzero ->
  (forall p mapSize,
      num_strict_eq (ms_height mapSize) Num.pzero = false ->
      num_strict_eq (ms_width mapSize) Num.pzero = false ->
      let dx :=
        (parseFloat (x (telemetryFrom (params p))) / MATH_HUNDRED
           * ms_width mapSize
         - parseFloat (x (telemetryTo (params p))) / MATH_HUNDRED
           * ms_width mapSize)%num in
      let dy :=
        (parseFloat (y (telemetryFrom (params p))) / MATH_HUNDRED
           * ms_height mapSize
         - parseFloat (y (telemetryTo (params p))) / MATH_HUNDRED
           * ms_height mapSize)%num in
      exists t,
        computePathTelemetry p mapSize = Some t /\
        t_angle t =
          (Math_atan (dy / dx)
           + (if num_ge (Math_sign dx) Num.pzero
              then Math_PI else Num.pzero))%num /\
        num_ge (Math_sign dx) Num.pzero = num_ge dx Num.pzero) /\
  (exists t,
      computePathTelemetry (constructor Examples.geometry_config)
                           Examples.geometry_mapSize = Some t /\
      t_angle t = Num.pzero /\
      t_width t = Num.ofZ 20) /\
  (exists t,
      computePathTelemetry (constructor Examples.diagonal_config)
                           Examples.geometry_mapSize = Some t /\
      t_angle t = (Math_atan (Num.ofZ 1) + Num.pzero)%num) /\
  (exists t,
      computePathTelemetry (constructor Examples.rising_config)
                           Examples.geometry_mapSize = Some t /\
      t_angle t = (Math_atan (Num.ofZ (-1)) + Math_PI)%num) /\
  (exists t,
      computePathTelemetry (constructor Examples.vertical_config)
                           Examples.geometry_mapSize = Some t /\
      t_angle t = (Math_atan (S754_infinity true) + Math_PI)%num).
Proof.
  intros Hatan. split; [|split; [|split; [|split]]].
  - intros p mapSize Hh Hw dx dy.
    destruct (computePathTelemetry_some p mapSize Hh Hw) as (t & Ht & _ & Ha).
    exists t. split; [exact Ht|]. split; [exact Ha|apply sign_ge_zero].
  - destruct (computePathTelemetry_some
                (constructor Examples.geometry_config)
                Examples.geometry_mapSize eq_refl eq_refl)
      as (t & Ht & Hw & Ha).
    exists t. split; [exact Ht|]. split.
    + rewrite Ha.
      replace (deltaYPx (constructor Examples.geometry_config)
                 Examples.geometry_mapSize) with Num.pzero
        by (vm_compute; reflexivity).
      replace (deltaXPx (constructor Examples.geometry_config)
                 Examples.geometry_mapSize) with (Num.ofZ (-500))
        by (vm_compute; reflexivity).
      change (Num.pzero / Num.ofZ (-500))%num with Num.nzero.
      now rewrite Hatan.
    + rewrite Hw. vm_compute. reflexivity.
  - destruct (computePathTelemetry_some
                (constructor Examples.diagonal_config)
                Examples.geometry_mapSize eq_refl eq_refl)
      as (t & Ht & _ & Ha).
    exists t. split; [exact Ht|]. rewrite Ha.
    replace (deltaYPx (constructor Examples.diagonal_config)
               Examples.geometry_mapSize) with (Num.ofZ (-500))
      by (vm_compute; reflexivity).
    replace (deltaXPx (constructor Examples.diagonal_config)
               Examples.geometry_mapSize) with (Num.ofZ (-500))
      by (vm_compute; reflexivity).
    reflexivity.
  - destruct (computePathTelemetry_some
                (constructor Examples.rising_config)
                Examples.geometry_mapSize eq_refl eq_refl)
      as (t & Ht & _ & Ha).
    exists t. split; [exact Ht|]. rewrite Ha.
    replace (deltaYPx (constructor Examples.rising_config)
               Examples.geometry_mapSize) with (Num.ofZ (-500))
      by (vm_compute; reflexivity).
    replace (deltaXPx (constructor Examples.rising_config)
               Examples.geometry_mapSize) with (Num.ofZ 500)
      by (vm_compute; reflexivity).
    reflexivity.
  - destruct (computePathTelemetry_some
                (constructor Examples.vertical_config)
                Examples.geometry_mapSize eq_refl eq_refl)
      as (t & Ht & _ & Ha).
    exists t. split; [exact Ht|]. rewrite Ha.
    replace (deltaYPx (constructor Examples.vertical_config)
               Examples.geometry_mapSize) with (Num.ofZ (-500))
      by (vm_compute; reflexivity).
    replace (deltaXPx (constructor Examples.vertical_config)
               Examples.geometry_mapSize) with Num.pzero
      by (vm_compute; reflexivity).
    reflexivity.
Qed.

End Geometry.

(** * Further properties *)

(** ** Histories of calls *)

Section Histories.

Context {rt : JSRuntime}.

Lemma constructor_frame (cfg : PathConfig) :
  globals (params (constructor cfg)) = cfg_globals cfg /\
  visible (params (constructor cfg)) = cfg_visible cfg /\
  state (constructor cfg) = JSUndefined /\
  isReachableState (constructor cfg) = JSUndefined.
Proof.
  unfold constructor.
  match goal with
  | |- context [if _ then hide ?q else show ?q] =>
      destruct (show_frame q) as (Hp & Hs & Hr)
  end.
  destruct (negb _).
  - repeat split.
  - rewrite Hp, Hs, Hr. repeat split.
Qed.

Lemma run_params (cs : list Call) (p : Path) :
  params (run cs p) = params p.
Proof.
  revert p. induction cs as [|c cs IH]; intros p; simpl; [reflexivity|].
  now rewrite IH, perform_params.
Qed.

Lemma tags_consistent_run (cs : list Call) (p : Path) :
  keys_distinct (states (globals (params p))) = true ->
  tags_consistent p = true ->
  tags_consistent (run cs p) = true.
Proof.
  revert p. induction cs as [|c cs IH]; intros p Hk Hc; simpl; [exact Hc|].
  apply IH.
  - now rewrite perform_params.
  - now apply tags_consistent_perform.
Qed.

(** X1.  Whatever state is configured, the constructor stores none: a
    new connector has the state [undefined], the reachability [undefined]
    and no state tag. *)
Theorem constructor_stores_no_state (cfg : PathConfig) :
  getState (constructor cfg) = JSUndefined /\
  isReachable (constructor cfg) = JSUndefined /\
  active_tags (constructor cfg) = [] /\
  params_state (params (constructor cfg))
  = nullish (cfg_state cfg) (get_prop (states (cfg_globals cfg)) "open").
Proof.
  destruct (constructor_frame cfg) as (_ & _ & Hs & Hr).
  split; [exact Hs|]. split; [exact Hr|]. split.
  - rewrite (active_tags_by_state _ (tags_consistent_constructor cfg)).
    rewrite Hs.
    induction (states (globals (params (constructor cfg)))) as [|e l IH];
      [reflexivity|exact IH].
  - unfold constructor.
    match goal with
    | |- context [if _ then hide ?q else show ?q] =>
        destruct (show_frame q) as (Hp & _)
    end.
    destruct (negb _); [reflexivity|]. now rewrite Hp.
Qed.

(** X2.  No call changes the configuration: after any history the
    parameters, the stage ids and the answers of [connectsTo] are those of
    the start. *)
Theorem history_keeps_configuration (cs : list Call) (p : Path) :
  params (run cs p) = params p /\
  getStageIds (run cs p) = getStageIds p /\
  forall stageId, connectsTo stageId (run cs p) = connectsTo stageId p.
Proof.
  pose proof (run_params cs p) as H.
  unfold getStageIds, connectsTo. rewrite H. repeat split.
Qed.

(** X3.  After any history of calls on a new connector, the tag of a key
    of the enumeration is on the element exactly when the value of the key
    is strictly equal to the stored state (the enumeration having each key
    once and no key with white space, so that every tag is a token the
    element takes). *)
Theorem tags_follow_state (cfg : PathConfig) (cs : list Call) :
  keys_distinct (states (cfg_globals cfg)) = true ->
  valid_keys (states (cfg_globals cfg)) = true ->
  forall k v,
    In (k, v) (states (cfg_globals cfg)) ->
    contains (state_tag k) (classList (dom (run cs (constructor cfg))))
    = strict_eq (JSNum v) (getState (run cs (constructor cfg))).
Proof.
  intros Hk _ k v Hin.
  destruct (constructor_frame cfg) as (Hg & _).
  assert (Hc : tags_consistent (run cs (constructor cfg)) = true).
  { apply tags_consistent_run; [now rewrite Hg|].
    apply tags_consistent_constructor. }
  unfold tags_consistent in Hc.
  rewrite run_params, Hg in Hc.
  rewrite forallb_forall in Hc.
  apply eqb_prop. exact (Hc (k, v) Hin).
Qed.

Lemma get_prop_cases (sts : States) (key : string) :
  get_prop sts key = JSUndefined \/
  exists v, In (key, v) sts /\ get_prop sts key = JSNum v.
Proof.
  unfold get_prop, find_entry.
  destruct (find (fun entry => String.eqb (fst entry) key) sts)
    as [[k v]|] eqn:F; [right|now left].
  apply find_some in F as [Hin Hk]. simpl in Hk.
  apply String.eqb_eq in Hk. subst k. now exists v.
Qed.

Lemma newState_for_cases (sts : States) (force : JSValue) (n : number) :
  newState_for sts force n = JSUndefined \/
  exists k v, In (k, v) sts /\ newState_for sts force n = JSNum v.
Proof.
  unfold newState_for.
  destruct (ToBoolean force).
  - destruct (get_prop_cases sts (Number_toString n)) as [H|(v & H1 & H2)];
      [now left|right; eauto].
  - destruct (strict_eq (JSNum n) (get_prop sts "open")).
    + destruct (get_prop_cases sts "open") as [H|(v & H1 & H2)];
        [now left|right; eauto].
    + destruct (strict_eq (JSNum n) (get_prop sts "cleared")); [|now left].
      destruct (get_prop_cases sts "cleared") as [H|(v & H1 & H2)];
        [now left|right; eauto].
Qed.

Lemma setState_state (st force : JSValue) (p : Path) :
  state (object_of (setState st force p)) = state p \/
  exists n,
    state (object_of (setState st force p))
    = newState_for (states (globals (params p))) force n.
Proof.
  destruct st as [| |b|n|key|r]; try (left; reflexivity).
  - destruct (setState_number_frame n force p) as (q & E & Hs & _).
    rewrite E. right. now exists n.
  - destruct (find_entry (states (globals (params p))) key) as [entry|] eqn:F.
    + rewrite (setState_known_key _ _ _ _ F).
      destruct (setState_number_frame (snd entry) force p) as (q & E & Hs & _).
      rewrite E. right. now exists (snd entry).
    + rewrite (setState_unknown_key _ _ _ F). now left.
Qed.

Lemma perform_state (c : Call) (p : Path) :
  state (object_of (perform c p)) = state p \/
  exists force n,
    state (object_of (perform c p))
    = newState_for (states (globals (params p))) force n.
Proof.
  destruct c as [v| | |u|mapSize|isInitial|st force|]; simpl.
  - left. apply setReachable_frame.
  - left. apply show_frame.
  - now left.
  - now left.
  - left. unfold resize. now destruct (computePathTelemetry p mapSize).
  - rewrite reset_unfold.
    match goal with
    | |- context [setState ?st ?f ?q] =>
        destruct (setState_state st f q) as [H|(n & H)];
        destruct (setState_frame st f q) as (Hp & _);
        destruct (setState st f q) as [q1|e q1]; simpl in *
    end.
    + left. destruct (ToBoolean isInitial && ToBoolean (visible (params q1)));
        [rewrite (proj1 (proj2 (show_frame q1)))|]; exact H.
    + now left.
    + right. exists JSUndefined, n.
      destruct (ToBoolean isInitial && ToBoolean (visible (params q1)));
        [rewrite (proj1 (proj2 (show_frame q1)))|]; exact H.
    + right. now exists JSUndefined, n.
  - destruct (setState_state st force p) as [H|(n & H)];
      [now left|right; now exists force, n].
  - left. unfold animationFrame. now destruct (frameRequests p).
Qed.

Lemma run_state (cs : list Call) (p : Path) :
  (state p = JSUndefined \/
   exists k v, In (k, v) (states (globals (params p))) /\ state p = JSNum v) ->
  state (run cs p) = JSUndefined \/
  exists k v,
    In (k, v) (states (globals (params p))) /\ state (run cs p) = JSNum v.
Proof.
  revert p. induction cs as [|c cs IH]; intros p H; simpl; [exact H|].
  rewrite <- (perform_params c p). apply IH. rewrite perform_params.
  destruct (perform_state c p) as [E|(force & n & E)]; rewrite E;
    [exact H|apply newState_for_cases].
Qed.

(** X4.  After any history of calls on a new connector, the stored state
    is [undefined] or a value of the enumeration: nothing else is ever
    stored, whatever numbers and names the calls pass. *)
Theorem stored_state_in_enumeration (cfg : PathConfig) (cs : list Call) :
  getState (run cs (constructor cfg)) = JSUndefined \/
  exists k v,
    In (k, v) (states (cfg_globals cfg)) /\
    getState (run cs (constructor cfg)) = JSNum v.
Proof.
  destruct (constructor_frame cfg) as (Hg & _ & Hs & _).
  unfold getState. rewrite <- Hg.
  apply run_state. now left.
Qed.

Lemma filter_value_length (sts : States) (current : JSValue) :
  values_distinct sts = true ->
  (List.length (filter (fun entry => strict_eq (JSNum (snd entry)) current) sts)
   <= 1)%nat.
Proof.
  intros Hd.
  destruct (filter (fun entry => strict_eq (JSNum (snd entry)) current) sts)
    as [|[k v] l] eqn:F; [simpl; lia|].
  assert (Hin : In (k, v)
                  (filter (fun entry => strict_eq (JSNum (snd entry)) current)
                          sts)) by (rewrite F; now left).
  apply filter_In in Hin as [Hin Hv]. simpl in Hv.
  rewrite (one_entry_per_value sts current k v Hd Hin Hv) in F.
  injection F as <-. simpl. lia.
Qed.

(** X5.  After any history of calls on a new connector at most one state
    tag is on the element, when the enumeration has each key once and no
    two keys with the same value. *)
Theorem at_most_one_state_tag (cfg : PathConfig) (cs : list Call) :
  keys_distinct (states (cfg_globals cfg)) = true ->
  values_distinct (states (cfg_globals cfg)) = true ->
  (List.length (active_tags (run cs (constructor cfg))) <= 1)%nat.
Proof.
  intros Hk Hd.
  destruct (constructor_frame cfg) as (Hg & _).
  rewrite active_tags_by_state.
  - rewrite List.length_map. apply filter_value_length.
    now rewrite run_params, Hg.
  - apply tags_consistent_run; [now rewrite Hg|].
    apply tags_consistent_constructor.
Qed.

End Histories.

(** ** The two markers of visibility *)

Lemma hide_hide (p : Path) : hide (hide p) = hide p.
Proof.
  destruct p as [pa st re vi [cl sty] fr].
  unfold hide, set_classList, set_isVisibleState. simpl.
  rewrite (add_present "display-none")
    by (rewrite !contains_add; reflexivity).
  rewrite (add_present "transparent")
    by (rewrite !contains_add; reflexivity).
  reflexivity.
Qed.

Lemma show_displayed (p : Path) :
  ToBoolean (displayPaths (globals (params p))) = true ->
  show p =
  set_isVisibleState (JSBool true)
    (set_frameRequests (S (frameRequests p))
       (set_classList
          (classList_remove "display-none" (classList (dom p))) p)).
Proof. intros H. unfold show. now rewrite H. Qed.

(** X6.  [hide()] is idempotent, and after it the connector is not
    visible and carries both markers, [display-none] and [transparent]. *)
Theorem hide_idempotent (p : Path) :
  hide (hide p) = hide p /\
  isVisible (hide p) = JSBool false /\
  contains "display-none" (classList (dom (hide p))) = true /\
  contains "transparent" (classList (dom (hide p))) = true.
Proof.
  split; [apply hide_hide|]. split; [reflexivity|].
  split; simpl; rewrite !contains_add; reflexivity.
Qed.

(** X7.  With paths displayed, [show()] on a hidden connector reveals it in
    two steps: at once it is visible and [display-none] is gone while
    [transparent] is still there; the next animation frame takes
    [transparent] away and leaves no callback pending. *)
Theorem show_is_two_phase (p : Path) :
  ToBoolean (displayPaths (globals (params p))) = true ->
  isVisible (show (hide p)) = JSBool true /\
  contains "display-none" (classList (dom (show (hide p)))) = false /\
  contains "transparent" (classList (dom (show (hide p)))) = true /\
  isVisible (animationFrame (show (hide p))) = JSBool true /\
  contains "display-none"
    (classList (dom (animationFrame (show (hide p))))) = false /\
  contains "transparent"
    (classList (dom (animationFrame (show (hide p))))) = false /\
  frameRequests (animationFrame (show (hide p))) = 0%nat.
Proof.
  intros H.
  rewrite (show_displayed (hide p) H).
  unfold animationFrame. simpl.
  rewrite !contains_remove, !contains_add.
  repeat split; reflexivity.
Qed.

(** X8.  [hide()] does not cancel the callback that [show()] has handed to
    the animation frame: after [show()], [hide()] and the frame, the
    connector is hidden and carries [display-none], but [transparent] has
    been taken away. *)
Theorem hide_keeps_pending_frame (p : Path) :
  ToBoolean (displayPaths (globals (params p))) = true ->
  isVisible (animationFrame (hide (show p))) = JSBool false /\
  contains "display-none"
    (classList (dom (animationFrame (hide (show p))))) = true /\
  contains "transparent"
    (classList (dom (animationFrame (hide (show p))))) = false.
Proof.
  intros H.
  rewrite (show_displayed p H).
  unfold animationFrame. simpl.
  rewrite !contains_remove, !contains_add.
  repeat split; reflexivity.
Qed.

(** X9.  Making a connector unreachable hides it, and making it reachable
    again does not bring it back: [setReachable(true)] records the flag and
    touches neither the visibility nor the classes. *)
Theorem reachable_again_stays_hidden (p : Path) :
  isReachable (setReachable (JSBool true) (setReachable (JSBool false) p))
  = JSBool true /\
  isVisible (setReachable (JSBool true) (setReachable (JSBool false) p))
  = JSBool false /\
  isVisible (setReachable (JSBool true) p) = isVisible p /\
  dom (setReachable (JSBool true) p) = dom p.
Proof. repeat split. Qed.

Section Markers.

Context {rt : JSRuntime}.

Lemma marker_hide (p : Path) :
  contains "display-none" (classList (dom (hide p)))
  = strict_eq (isVisibleState (hide p)) (JSBool false).
Proof. simpl. rewrite !contains_add. reflexivity. Qed.

Lemma marker_show (p : Path) :
  contains "display-none" (classList (dom p))
  = strict_eq (isVisibleState p) (JSBool false) ->
  contains "display-none" (classList (dom (show p)))
  = strict_eq (isVisibleState (show p)) (JSBool false).
Proof.
  intros H. unfold show.
  destruct (negb (ToBoolean (displayPaths (globals (params p)))));
    [exact H|].
  simpl. rewrite contains_remove. reflexivity.
Qed.

(** [setState] touches no class but the state tags. *)
Lemma setState_other_classes (t : string) (st force : JSValue) (p : Path) :
  (forall k, String.eqb t (state_tag k) = false) ->
  contains t (classList (dom (object_of (setState st force p))))
  = contains t (classList (dom p)).
Proof.
  intros Ht.
  assert (Hn : forall n,
             contains t
               (classList (dom (object_of (setState (JSNum n) force p))))
             = contains t (classList (dom p))).
  { intros n. rewrite setState_number. simpl.
    destruct (negb (ToBoolean (state p)) || _); [|reflexivity].
    simpl. apply contains_apply_other.
    apply forallb_forall. intros e _. now rewrite Ht. }
  destruct st as [| |b|n|key|r]; try reflexivity.
  - apply Hn.
  - destruct (find_entry (states (globals (params p))) key) as [entry|] eqn:F.
    + rewrite (setState_known_key _ _ _ _ F). apply Hn.
    + now rewrite (setState_unknown_key _ _ _ F).
Qed.

Lemma marker_setState (st force : JSValue) (p : Path) :
  contains "display-none" (classList (dom p))
  = strict_eq (isVisibleState p) (JSBool false) ->
  contains "display-none"
    (classList (dom (object_of (setState st force p))))
  = strict_eq (isVisibleState (object_of (setState st force p)))
              (JSBool false).
Proof.
  intros H.
  rewrite setState_other_classes by (intros k; reflexivity).
  now rewrite (proj1 (proj2 (setState_frame st force p))).
Qed.

Lemma marker_perform (c : Call) (p : Path) :
  contains "display-none" (classList (dom p))
  = strict_eq (isVisibleState p) (JSBool false) ->
  contains "display-none" (classList (dom (object_of (perform c p))))
  = strict_eq (isVisibleState (object_of (perform c p))) (JSBool false).
Proof.
  intros H.
  destruct c as [v| | |u|mapSize|isInitial|st force|]; simpl.
  - destruct v as [| |[]| | |]; try exact H.
    change (setReachable (JSBool false) p)
      with (hide (set_isReachableState (JSBool false) p)).
    apply marker_hide.
  - now apply marker_show.
  - apply marker_hide.
  - exact H.
  - unfold resize. now destruct (computePathTelemetry p mapSize).
  - rewrite reset_unfold.
    match goal with
    | |- context [setState ?st ?f ?q] =>
        pose proof (marker_setState st f q H) as Hm;
        destruct (setState st f q) as [q1|e q1]; simpl in Hm |- *
    end; [|exact Hm].
    destruct (ToBoolean isInitial && ToBoolean (visible (params q1)));
      [now apply marker_show|apply marker_hide].
  - now apply marker_setState.
  - unfold animationFrame. destruct (frameRequests p); [exact H|].
    simpl. rewrite contains_remove. exact H.
Qed.

Lemma marker_run (cs : list Call) (p : Path) :
  contains "display-none" (classList (dom p))
  = strict_eq (isVisibleState p) (JSBool false) ->
  contains "display-none" (classList (dom (run cs p)))
  = strict_eq (isVisibleState (run cs p)) (JSBool false).
Proof.
  revert p. induction cs as [|c cs IH]; intros p H; simpl; [exact H|].
  now apply IH, marker_perform.
Qed.

(** X10.  After any history of calls on a new connector, the class
    [display-none] is on the element exactly when [isVisible()] is
    [false]: no call moves the one without the other. *)
Theorem hidden_marker_follows_visibility (cfg : PathConfig)
  (cs : list Call) :
  contains "display-none" (classList (dom (run cs (constructor cfg))))
  = strict_eq (isVisible (run cs (constructor cfg))) (JSBool false).
Proof.
  apply marker_run. unfold constructor.
  destruct (negb _); [apply marker_hide|now apply marker_show].
Qed.

Lemma show_visibility (p : Path) :
  isVisibleState (show p) = isVisibleState p \/
  isVisibleState (show p) = JSBool true.
Proof.
  unfold show.
  destruct (negb (ToBoolean (displayPaths (globals (params p)))));
    [now left|now right].
Qed.

Lemma boolean_visibility_perform (c : Call) (p : Path) :
  (exists b, isVisibleState p = JSBool b) ->
  exists b, isVisibleState (object_of (perform c p)) = JSBool b.
Proof.
  intros H.
  assert (Hshow : forall q, isVisibleState q = isVisibleState p ->
            exists b, isVisibleState (show q) = JSBool b).
  { intros q Hq. destruct (show_visibility q) as [E|E]; rewrite E;
      [now rewrite Hq|now exists true]. }
  destruct c as [v| | |u|mapSize|isInitial|st force|]; simpl.
  - destruct v as [| |[]| | |]; try exact H. now exists false.
  - now apply Hshow.
  - now exists false.
  - exact H.
  - unfold resize. now destruct (computePathTelemetry p mapSize).
  - rewrite reset_unfold.
    match goal with
    | |- context [setState ?st ?f ?q] =>
        destruct (setState_frame st f q) as (_ & Hv & _);
        destruct (setState st f q) as [q1|e q1]; simpl in Hv |- *
    end; [|now rewrite Hv].
    destruct (ToBoolean isInitial && ToBoolean (visible (params q1)));
      [now apply Hshow|now exists false].
  - now rewrite (proj1 (proj2 (setState_frame st force p))).
  - unfold animationFrame. now destruct (frameRequests p).
Qed.

(** X11.  A connector constructed not visible, or constructed with paths
    displayed, answers [isVisible()] with a boolean after any history of
    calls. *)
Theorem visibility_is_boolean (cfg : PathConfig) (cs : list Call) :
  ToBoolean (cfg_visible cfg) = false \/
  ToBoolean (displayPaths (cfg_globals cfg)) = true ->
  exists b, isVisible (run cs (constructor cfg)) = JSBool b.
Proof.
  intros H.
  assert (H0 : exists b, isVisibleState (constructor cfg) = JSBool b).
  { unfold constructor. simpl.
    destruct (ToBoolean (cfg_visible cfg)) eqn:Ev; simpl.
    - destruct H as [H|H]; [discriminate|].
      exists true. now apply show_displayed_paths.
    - now exists false. }
  clear H. revert H0. generalize (constructor cfg).
  induction cs as [|c cs IH]; intros p H; simpl; [exact H|].
  now apply IH, boolean_visibility_perform.
Qed.

End Markers.

(** ** More on the telemetry *)

Lemma sub_diag_finite (a : number) :
  Num.is_finite a = true -> (a - a)%num = Num.pzero.
Proof.
  destruct a as [s|s| |s m e]; try discriminate; intros _.
  - now destruct s.
  - unfold Num.sub, SFsub. now rewrite Z.sub_diag.
Qed.

Lemma strokeWidth_inside (w f : number) :
  Num.leb MIN_WIDTH_PX (w * f)%num = true ->
  Num.leb (w * f)%num (w * MAX_FACTOR)%num = true ->
  strokeWidth w f = (w * f)%num.
Proof.
  unfold strokeWidth. generalize (w * f)%num (w * MAX_FACTOR)%num.
  intros a b Hlo Hhi.
  assert (Hmax : Math_max MIN_WIDTH_PX a = a).
  { unfold Math_max. unfold Num.leb, SFleb in Hlo.
    change SFcompare with Num.compare in Hlo.
    destruct (Num.compare MIN_WIDTH_PX a) as [[]|] eqn:E;
      try discriminate; [|reflexivity].
    change MIN_WIDTH_PX with (S754_finite false 4503599627370496 (-52)) in *.
    apply eqb_nonzero_eq; [|exact I].
    unfold Num.eqb, SFeqb. change SFcompare with Num.compare. now rewrite E. }
  rewrite Hmax. unfold Math_min. unfold Num.leb, SFleb in Hhi.
  change SFcompare with Num.compare in Hhi.
  destruct (Num.compare a b) as [[]|] eqn:E; try discriminate;
    [|reflexivity].
  destruct a as [[]| | |]; try reflexivity. discriminate.
Qed.

Lemma strokeWidth_nan (w f : number) :
  Num.isNaN w = true \/ Num.isNaN f = true ->
  strokeWidth w f = Num.NaN.
Proof.
  intros H. unfold strokeWidth.
  assert (E : (w * f)%num = Num.NaN).
  { destruct H as [H|H]; [destruct w|destruct f]; try discriminate;
      [reflexivity|now destruct w]. }
  rewrite E. reflexivity.
Qed.

Section MoreTelemetry.

Context {rt : JSRuntime}.

Lemma computePathTelemetry_params (p q : Path) (mapSize : MapSize) :
  params p = params q ->
  computePathTelemetry p mapSize = computePathTelemetry q mapSize.
Proof.
  intros H.
  unfold computePathTelemetry, fromBoxPixelWidth, deltaXPx, deltaYPx.
  now rewrite H.
Qed.

Lemma computePathTelemetry_length (p : Path) (mapSize : MapSize) :
  num_strict_eq (ms_height mapSize) Num.pzero = false ->
  num_strict_eq (ms_width mapSize) Num.pzero = false ->
  exists t, computePathTelemetry p mapSize = Some t /\
    t_length t =
      (Math_sqrt (Math_abs (deltaXPx p mapSize) * Math_abs (deltaXPx p mapSize)
                  + Math_abs (deltaYPx p mapSize)
                    * Math_abs (deltaYPx p mapSize))
       - fromBoxPixelWidth p mapSize)%num.
Proof.
  intros Hh Hw. unfold computePathTelemetry. rewrite Hh, Hw. simpl.
  eexists. split; reflexivity.
Qed.

(** X12.  [resize] writes the style and nothing else; a resize done
    twice is done once; and when the telemetry for [m2] is such that the
    element takes every field of it (finite numbers, length and stroke
    width not negative), resizing to [m2] after any other resize gives what
    resizing to [m2] alone gives. *)
Theorem resize_last_wins (p : Path) :
  (forall m1 m2 t,
      computePathTelemetry p m2 = Some t ->
      accepted_telemetry t = true ->
      resize m2 (resize m1 p) = resize m2 p) /\
  (forall m, resize m (resize m p) = resize m p) /\
  (forall m,
      params (resize m p) = params p /\
      state (resize m p) = state p /\
      isReachableState (resize m p) = isReachableState p /\
      isVisibleState (resize m p) = isVisibleState p /\
      classList (dom (resize m p)) = classList (dom p) /\
      frameRequests (resize m p) = frameRequests p).
Proof.
  assert (Hlast : forall m1 m2 t,
             computePathTelemetry p m2 = Some t ->
             resize m2 (resize m1 p) = resize m2 p).
  { intros m1 m2 t Ht. unfold resize at 1.
    rewrite (computePathTelemetry_params (resize m1 p) p m2)
      by (unfold resize; now destruct (computePathTelemetry p m1)).
    unfold resize. rewrite Ht.
    now destruct (computePathTelemetry p m1). }
  split; [|split].
  - intros m1 m2 t Ht _. now apply (Hlast m1 m2 t).
  - intros m. destruct (computePathTelemetry p m) as [t|] eqn:Ht.
    + now apply (Hlast m m t).
    + unfold resize. rewrite Ht. now rewrite Ht.
  - intros m. unfold resize.
    destruct (computePathTelemetry p m); repeat split.
Qed.

(** X13.  Two boxes at the same place: with finite pixel coordinates both
    deltas are [0], the quotient is [0/0], and the angle is NaN
    ([Math.atan] maps NaN to NaN); the length is [0] minus the pixel width
    of the from-box. *)
Theorem coincident_boxes (p : Path) (mapSize : MapSize) :
  Math_atan Num.NaN = Num.NaN ->
  num_strict_eq (ms_height mapSize) Num.pzero = false ->
  num_strict_eq (ms_width mapSize) Num.pzero = false ->
  x (telemetryTo (params p)) = x (telemetryFrom (params p)) ->
  y (telemetryTo (params p)) = y (telemetryFrom (params p)) ->
  Num.is_finite (parseFloat (x (telemetryFrom (params p))) / MATH_HUNDRED
                 * ms_width mapSize)%num = true ->
  Num.is_finite (parseFloat (y (telemetryFrom (params p))) / MATH_HUNDRED
                 * ms_height mapSize)%num = true ->
  exists t,
    computePathTelemetry p mapSize = Some t /\
    t_angle t = Num.NaN /\
    t_length t = (Num.pzero - fromBoxPixelWidth p mapSize)%num.
Proof.
  intros Hatan Hh Hw Hx Hy Hfx Hfy.
  assert (Hdx : deltaXPx p mapSize = Num.pzero)
    by (unfold deltaXPx; rewrite Hx; now apply sub_diag_finite).
  assert (Hdy : deltaYPx p mapSize = Num.pzero)
    by (unfold deltaYPx; rewrite Hy; now apply sub_diag_finite).
  destruct (computePathTelemetry_some p mapSize Hh Hw) as (t & Ht & _ & Ha).
  destruct (computePathTelemetry_length p mapSize Hh Hw) as (t' & Ht' & Hl).
  rewrite Ht in Ht'. injection Ht' as <-.
  exists t. split; [exact Ht|]. split.
  - rewrite Ha, Hdx, Hdy.
    change (Num.pzero / Num.pzero)%num with Num.NaN.
    now rewrite Hatan.
  - rewrite Hl, Hdx, Hdy. reflexivity.
Qed.

(** X14.  Two boxes at the same height ([dy] is [+0]): the angle is [0]
    when the path runs to the right ([dx < 0]) and [Math.PI] when it runs to
    the left ([dx > 0]); [Math.atan] maps each zero to itself. *)
Theorem horizontal_angle (p : Path) (mapSize : MapSize) :
  (forall s, Math_atan (S754_zero s) = S754_zero s) ->
  num_strict_eq (ms_height mapSize) Num.pzero = false ->
  num_strict_eq (ms_width mapSize) Num.pzero = false ->
  deltaYPx p mapSize = Num.pzero ->
  exists t,
    computePathTelemetry p mapSize = Some t /\
    (Num.ltb (deltaXPx p mapSize) Num.pzero = true ->
     t_angle t = Num.pzero) /\
    (Num.ltb Num.pzero (deltaXPx p mapSize) = true ->
     t_angle t = Math_PI).
Proof.
  intros Hatan Hh Hw Hdy.
  destruct (computePathTelemetry_some p mapSize Hh Hw) as (t & Ht & _ & Ha).
  exists t. split; [exact Ht|]. rewrite Ha, Hdy.
  destruct (deltaXPx p mapSize) as [s|s| |s m e]; split; intros H;
    try discriminate; destruct s; try discriminate;
    simpl; rewrite Hatan; reflexivity.
Qed.

(** X15.  Between its two bounds the fraction is honoured to the bit: when
    [MIN_WIDTH_PX <= w * f <= w * MAX_FACTOR] for the from-box pixel width
    [w] and the path-width fraction [f], the stroke width is [w * f]. *)
Theorem stroke_width_is_fraction (p : Path) (mapSize : MapSize) :
  num_strict_eq (ms_height mapSize) Num.pzero = false ->
  num_strict_eq (ms_width mapSize) Num.pzero = false ->
  Num.leb MIN_WIDTH_PX
    (fromBoxPixelWidth p mapSize * pathWidth (params p))%num = true ->
  Num.leb (fromBoxPixelWidth p mapSize * pathWidth (params p))%num
    (fromBoxPixelWidth p mapSize * MAX_FACTOR)%num = true ->
  exists t,
    computePathTelemetry p mapSize = Some t /\
    t_width t = (fromBoxPixelWidth p mapSize * pathWidth (params p))%num.
Proof.
  intros Hh Hw Hlo Hhi.
  destruct (computePathTelemetry_some p mapSize Hh Hw) as (t & Ht & Hwd & _).
  exists t. split; [exact Ht|]. rewrite Hwd.
  now apply strokeWidth_inside.
Qed.

(** X16.  The clamp does not repair NaN: when the path width or the pixel
    width of the from-box is NaN (a text that is no number), the stroke
    width is NaN. *)
Theorem stroke_width_nan (p : Path) (mapSize : MapSize) :
  num_strict_eq (ms_height mapSize) Num.pzero = false ->
  num_strict_eq (ms_width mapSize) Num.pzero = false ->
  Num.isNaN (fromBoxPixelWidth p mapSize) = true \/
  Num.isNaN (pathWidth (params p)) = true ->
  exists t,
    computePathTelemetry p mapSize = Some t /\ t_width t = Num.NaN.
Proof.
  intros Hh Hw H.
  destruct (computePathTelemetry_some p mapSize Hh Hw) as (t & Ht & Hwd & _).
  exists t. split; [exact Ht|]. rewrite Hwd.
  now apply strokeWidth_nan.
Qed.

End MoreTelemetry.

(** ** More on the state and on [reset] *)

Lemma find_entry_in (sts : States) (k : string) (v : number) :
  keys_distinct sts = true -> In (k, v) sts ->
  find_entry sts k = Some (k, v).
Proof.
  unfold keys_distinct, find_entry.
  induction sts as [|[k' v'] sts IH]; [contradiction|].
  cbn [map distinct find fst]. intros Hd Hin.
  apply andb_true_iff in Hd as [Hd1 Hd2]. apply negb_true_iff in Hd1.
  destruct Hin as [E|Hin].
  - injection E as -> ->. now rewrite String.eqb_refl.
  - destruct (String.eqb_spec k' k) as [->|Hne]; [|now apply IH].
    exfalso.
    assert (Hex : existsb (String.eqb k) (map fst sts) = true).
    { apply existsb_exists. exists k. split; [|apply String.eqb_refl].
      apply in_map_iff. now exists (k, v). }
    rewrite Hex in Hd1. discriminate.
Qed.

Lemma hide_reachable_hide (q : Path) :
  isReachableState q = JSBool true ->
  hide (set_isReachableState (JSBool true) (hide q)) = hide q.
Proof.
  destruct q as [pa st re vi [cl sty] fr]. simpl. intros ->.
  exact (hide_hide _).
Qed.

Section MoreStateMachine.

Context {rt : JSRuntime}.

(** X17.  A name and its value are the same argument: for an entry
    [(k, v)] of an enumeration that has each key once, [setState(k)] does
    what [setState(v)] does, forced or not. *)
Theorem setState_name_is_value (p : Path) (k : string) (v : number)
  (force : JSValue) :
  keys_distinct (states (globals (params p))) = true ->
  In (k, v) (states (globals (params p))) ->
  setState (JSStr k) force p = setState (JSNum v) force p.
Proof.
  intros Hk Hin.
  now rewrite (setState_known_key k (k, v) force p (find_entry_in _ k v Hk Hin)).
Qed.

(** X18.  The unforced transitions that the code accepts: for the entry
    [(k, v)] of [open] or of [cleared], [v] not NaN, the call stores a state
    strictly equal to [v] and leaves the tag of [k] as the only state tag
    (each key once and without white space, no two keys with the same
    value, tags in step with the state before the call). *)
Theorem setState_open_or_cleared (p : Path) (k : string) (v : number)
  (force : JSValue) :
  keys_distinct (states (globals (params p))) = true ->
  valid_keys (states (globals (params p))) = true ->
  values_distinct (states (globals (params p))) = true ->
  tags_consistent p = true ->
  ToBoolean force = false ->
  In (k, v) (states (globals (params p))) ->
  k = "open" \/ k = "cleared" ->
  Num.isNaN v = false ->
  exists p',
    setState (JSStr k) force p = Normal p' /\
    strict_eq (getState p') (JSNum v) = true /\
    active_tags p' = [state_tag k].
Proof.
  intros Hk _ Hd Hc Hf Hin Hoc Hn.
  pose proof (find_entry_in _ k v Hk Hin) as F.
  assert (Hg : get_prop (states (globals (params p))) k = JSNum v)
    by (unfold get_prop; now rewrite F).
  rewrite (setState_known_key k (k, v) force p F). cbn [snd].
  destruct (setState_number_frame v force p) as (p' & E & Hs & Hp & _).
  exists p'. split; [exact E|].
  assert (Hst : strict_eq (state p') (JSNum v) = true).
  { rewrite Hs. apply newState_for_open_or_cleared; try assumption.
    destruct Hoc as [->| ->]; [left|right]; now rewrite Hg. }
  split; [exact Hst|].
  apply (exclusive_tag p' k v).
  - exact (tags_consistent_setState v force p p' Hk Hc E).
  - now rewrite Hp.
  - now rewrite Hp.
  - destruct (state p'); try discriminate.
    simpl in *. unfold num_strict_eq in *. now rewrite eqb_sym.
Qed.


(** X20.  [setState] touches the stored state and the state tags and
    nothing else, also when it throws: parameters, reachability,
    visibility, style, pending frames and every class that is no state tag
    stay; an argument that is neither a number nor a string changes nothing
    at all. *)
Theorem setState_touches_state_only (st force : JSValue) (p : Path) :
  params (object_of (setState st force p)) = params p /\
  isReachable (object_of (setState st force p)) = isReachable p /\
  isVisible (object_of (setState st force p)) = isVisible p /\
  style (dom (object_of (setState st force p))) = style (dom p) /\
  frameRequests (object_of (setState st force p)) = frameRequests p /\
  (forall t,
      (forall k, String.eqb t (state_tag k) = false) ->
      contains t (classList (dom (object_of (setState st force p))))
      = contains t (classList (dom p))) /\
  (JSType_eqb (typeof st) TNumber = false ->
   JSType_eqb (typeof st) TString = false ->
   setState st force p = Normal p).
Proof.
  destruct (setState_frame st force p) as (H1 & H2 & H3).
  split; [exact H1|]. split; [exact H3|]. split; [exact H2|].
  assert (Hn : forall n,
             style (dom (object_of (setState (JSNum n) force p)))
             = style (dom p) /\
             frameRequests (object_of (setState (JSNum n) force p))
             = frameRequests p).
  { intros n.
    destruct (setState_number_frame n force p)
      as (q & E & _ & _ & _ & _ & Hs & Hf).
    rewrite E. now split. }
  assert (Hsf : style (dom (object_of (setState st force p))) = style (dom p)
                /\ frameRequests (object_of (setState st force p))
                   = frameRequests p).
  { destruct st as [| |b|n|key|r]; try (split; reflexivity).
    - apply Hn.
    - destruct (find_entry (states (globals (params p))) key)
        as [entry|] eqn:F.
      + rewrite (setState_known_key _ _ _ _ F). apply Hn.
      + rewrite (setState_unknown_key _ _ _ F). now split. }
  split; [apply Hsf|]. split; [apply Hsf|]. split.
  - intros t Ht. now apply setState_other_classes.
  - destruct st; simpl; intros; try discriminate; reflexivity.
Qed.

(** X21.  [reset({isInitial: true})] on a connector whose configured state
    is a name that the enumeration does not have: the call throws a
    [TypeError] after it has made the connector reachable and before it
    shows or hides it. *)
Theorem reset_unknown_initial_state (p : Path) (isInitial : JSValue)
  (key : string) :
  ToBoolean isInitial = true ->
  params_state (params p) = JSStr key ->
  find_entry (states (globals (params p))) key = None ->
  reset isInitial p = Throw TypeError (set_isReachableState (JSBool true) p)
  /\ isReachable (object_of (reset isInitial p)) = JSBool true
  /\ isVisible (object_of (reset isInitial p)) = isVisible p
  /\ dom (object_of (reset isInitial p)) = dom p.
Proof.
  intros Hi Hs F.
  assert (E : reset isInitial p
              = Throw TypeError (set_isReachableState (JSBool true) p)).
  { rewrite reset_unfold, Hi, Hs.
    now rewrite (setState_unknown_key key JSUndefined
                   (set_isReachableState (JSBool true) p) F). }
  rewrite E. repeat split.
Qed.

(** X22.  The plain [reset()] on an enumeration whose [open] is a number:
    it leaves the tag of [open] as the only state tag, and a second plain
    [reset()] changes nothing (each key once and without white space, no
    two keys with the same value, tags in step with the state before the
    call). *)
Theorem reset_plain_idempotent (p : Path) (isInitial : JSValue)
  (vo : number) :
  keys_distinct (states (globals (params p))) = true ->
  valid_keys (states (globals (params p))) = true ->
  values_distinct (states (globals (params p))) = true ->
  tags_consistent p = true ->
  get_prop (states (globals (params p))) "open" = JSNum vo ->
  Num.isNaN vo = false ->
  ToBoolean isInitial = false ->
  exists p',
    reset isInitial p = Normal p' /\
    active_tags p' = [state_tag "open"] /\
    reset isInitial p' = Normal p'.
Proof.
  intros Hk _ Hd Hc Ho Hn Hi.
  rewrite reset_unfold, Hi, Ho.
  destruct (setState_number_frame vo JSUndefined
              (set_isReachableState (JSBool true) p))
    as (q & E & Hs & Hp & _ & Hr & _).
  simpl in Hp, Hr, Hs.
  rewrite (newState_for_open _ JSUndefined vo eq_refl Ho Hn) in Hs.
  assert (Hcq : tags_consistent q = true)
    by exact (tags_consistent_setState vo JSUndefined
                (set_isReachableState (JSBool true) p) q Hk Hc E).
  rewrite E. cbn [andb]. exists (hide q). split; [reflexivity|]. split.
  - apply (exclusive_tag (hide q) "open" vo).
    + now rewrite tags_consistent_hide.
    + simpl. now rewrite Hp.
    + simpl. rewrite Hp.
      destruct (get_prop_cases (states (globals (params p))) "open")
        as [H|(v & Hin & H)]; rewrite Ho in H; [discriminate|].
      now injection H as ->.
    + simpl. rewrite Hs. simpl. unfold num_strict_eq. now apply eqb_refl.
  - rewrite reset_unfold, Hi.
    change (params (hide q)) with (params q). rewrite Hp, Ho.
    rewrite setState_same_state.
    + cbn [andb]. f_equal. now apply hide_reachable_hide.
    + change (tags_consistent (hide q) = true).
      now rewrite tags_consistent_hide.
    + simpl. rewrite Hp, Hs. symmetry.
      now apply newState_for_open.
Qed.

(** X23.  [connectsTo] compares strictly: with the two stage ids given as
    strings, the path connects to exactly these two strings and to no value
    of another type. *)
Theorem connectsTo_strict (p : Path) (a b : string) :
  fromId (params p) = JSStr a ->
  toId (params p) = JSStr b ->
  forall stageId,
    connectsTo stageId p = true <-> stageId = JSStr a \/ stageId = JSStr b.
Proof.
  intros Ha Hb stageId. unfold connectsTo. rewrite Ha, Hb.
  rewrite orb_true_iff.
  destruct stageId as [| |x|x|x|x]; simpl;
    try (split; [intros [H|H]; discriminate|intros [H|H]; discriminate]).
  rewrite !String.eqb_eq.
  split; intros [H|H]; [left|right|left|right]; congruence.
Qed.

End MoreStateMachine.

(** ** Evaluations *)

#[local] Existing Instance Sample.runtime.

Import Examples.

(** The hypotheses of [stroke_width_clamp] hold of the geometry example. *)
Lemma stroke_width_clamp_witness :
  Num.leb Num.pzero (pathWidth (params geometry_path)) = true /\
  Num.leb (pathWidth (params geometry_path)) (Num.ofZ 1) = true /\
  Num.ltb Num.pzero (fromBoxPixelWidth geometry_path geometry_mapSize) = true /\
  exists t,
    computePathTelemetry geometry_path geometry_mapSize = Some t /\
    Num.leb (t_width t)
      (fromBoxPixelWidth geometry_path geometry_mapSize * MAX_FACTOR)%num = true /\
    (Num.leb MIN_WIDTH_PX
       (fromBoxPixelWidth geometry_path geometry_mapSize * MAX_FACTOR)%num = true ->
     Num.leb MIN_WIDTH_PX (t_width t) = true) /\
    (Num.ltb (fromBoxPixelWidth geometry_path geometry_mapSize * MAX_FACTOR)%num
       MIN_WIDTH_PX = true ->
     t_width t =
       (fromBoxPixelWidth geometry_path geometry_mapSize * MAX_FACTOR)%num).
Proof.
  repeat split; try reflexivity.
  apply (stroke_width_clamp geometry_path geometry_mapSize); reflexivity.
Defined.

(** A from-box two pixels wide with the fraction 0.2: the stroke is 0.6
    pixels wide, below [MIN_WIDTH_PX]. *)
Lemma stroke_width_below_minimum :
  Num.leb Num.pzero (pathWidth (params narrow_path)) = true /\
  Num.leb (pathWidth (params narrow_path)) (Num.ofZ 1) = true /\
  fromBoxPixelWidth narrow_path small_mapSize = Num.ofZ 2 /\
  exists t,
    computePathTelemetry narrow_path small_mapSize = Some t /\
    t_width t = Num.ofRatio 6 10 /\
    Num.leb MIN_WIDTH_PX (t_width t) = false.
Proof.
  repeat split. eexists. split; [reflexivity|]. split; reflexivity.
Qed.

Lemma zero_size_guard_witness :
  (num_strict_eq (ms_width flat_mapSize) Num.pzero = true \/
   num_strict_eq (ms_height flat_mapSize) Num.pzero = true) /\
  computePathTelemetry geometry_path flat_mapSize = None /\
  resize flat_mapSize geometry_path = geometry_path.
Proof.
  split; [right; reflexivity|].
  apply (zero_size_guard geometry_path flat_mapSize). right. reflexivity.
Defined.

Example zero_size_guard_empty :
  computePathTelemetry geometry_path empty_mapSize = None /\
  resize empty_mapSize geometry_path = geometry_path.
Proof. split; reflexivity. Qed.

Lemma angle_and_stroke_example_witness :
  Math_atan Num.nzero = Num.nzero /\
  (exists t,
      computePathTelemetry geometry_path geometry_mapSize = Some t /\
      t_angle t = Num.pzero /\
      t_width t = Num.ofZ 20) /\
  (exists t,
      computePathTelemetry (constructor diagonal_config) geometry_mapSize
      = Some t /\
      t_angle t = (Math_atan (Num.ofZ 1) + Num.pzero)%num) /\
  (exists t,
      computePathTelemetry (constructor rising_config) geometry_mapSize
      = Some t /\
      t_angle t = (Math_atan (Num.ofZ (-1)) + Math_PI)%num) /\
  (exists t,
      computePathTelemetry (constructor vertical_config) geometry_mapSize
      = Some t /\
      t_angle t = (Math_atan (S754_infinity true) + Math_PI)%num).
Proof.
  split; [reflexivity|].
  exact (proj2 (angle_and_stroke_example (rt := Sample.runtime) eq_refl)).
Defined.

(** C2.  [setState('finished')] on the enumeration [locked, unlocking, open,
    opened, completed, cleared, sealed]: the name is no key, and the call
    throws a [TypeError]; the connector is left as it was. *)
Lemma setState_unknown_name_throws :
  find_entry stage_states "finished" = None /\
  setState (JSStr "finished") JSUndefined open_path
  = Throw TypeError open_path.
Proof. split; vm_compute; reflexivity. Qed.

(** A name that is a key stands for its value. *)
Example setState_known_name :
  setState (JSStr "cleared") JSUndefined geometry_path
  = setState (JSNum (Num.ofZ 5)) JSUndefined geometry_path.
Proof. vm_compute. reflexivity. Qed.

(** C3.  The connector is [open] and carries the tag of [open];
    [setState(states.unlocking)] without [force] stores [undefined] and
    takes the tag away. *)
Lemma unforced_other_state_clears :
  getState open_path = JSNum (Num.ofZ 2) /\
  active_tags open_path = ["h5p-game-map-path-open"] /\
  exists p',
    setState (JSNum (Num.ofZ 1)) JSUndefined open_path = Normal p' /\
    getState p' = JSUndefined /\
    active_tags p' = [].
Proof.
  split; [vm_compute; reflexivity|]. split; [vm_compute; reflexivity|].
  eexists. split; [vm_compute; reflexivity|].
  split; vm_compute; reflexivity.
Qed.

(** C7.  The connector is [open]; [setState(states.cleared, {force: true})]
    reads [states[5]], which the enumeration does not have, stores
    [undefined] and leaves no state tag on the element. *)
Lemma forced_setState_leaves_no_tag :
  getState open_path = JSNum (Num.ofZ 2) /\
  get_prop stage_states (Number_toString (Num.ofZ 5)) = JSUndefined /\
  exists p',
    setState (JSNum (Num.ofZ 5)) (JSBool true) open_path = Normal p' /\
    getState p' = JSUndefined /\
    active_tags p' = [].
Proof.
  split; [vm_compute; reflexivity|]. split; [vm_compute; reflexivity|].
  eexists. split; [vm_compute; reflexivity|].
  split; vm_compute; reflexivity.
Qed.

(** Where the chain does assign, one tag is active after the change. *)
Example setState_cleared_one_tag :
  exists p',
    setState (JSStr "cleared") JSUndefined open_path = Normal p' /\
    getState p' = JSNum (Num.ofZ 5) /\
    active_tags p' = ["h5p-game-map-path-cleared"].
Proof.
  eexists. split; [vm_compute; reflexivity|].
  split; vm_compute; reflexivity.
Qed.

Lemma setState_idempotent_witness :
  keys_distinct (states (globals (params geometry_path))) = true /\
  tags_consistent geometry_path = true /\
  exists p1,
    setState (JSStr "open") JSUndefined geometry_path = Normal p1 /\
    setState (JSStr "open") JSUndefined p1 = Normal p1.
Proof.
  split; [vm_compute; reflexivity|]. split; [vm_compute; reflexivity|].
  apply (proj1 (proj2 (setState_idempotent geometry_path
                         ltac:(vm_compute; reflexivity)
                         ltac:(vm_compute; reflexivity)))
           "open" ("open", Num.ofZ 2) JSUndefined).
  vm_compute; reflexivity.
Defined.

(** [setState('open')] twice in a row: the first call puts the tag of
    [open] on the element, the second changes nothing; also when [open] is
    the falsy [0]. *)
Example setState_open_twice :
  classList (dom geometry_path) = [base_class] /\
  classList (dom open_path) = [base_class; "h5p-game-map-path-open"] /\
  setState (JSStr "open") JSUndefined open_path = Normal open_path /\
  exists p1,
    setState (JSStr "open") JSUndefined zero_based_path = Normal p1 /\
    getState p1 = JSNum (Num.ofZ 0) /\
    active_tags p1 = ["h5p-game-map-path-open"] /\
    setState (JSStr "open") JSUndefined p1 = Normal p1.
Proof.
  split; [vm_compute; reflexivity|]. split; [vm_compute; reflexivity|].
  split; [vm_compute; reflexivity|].
  eexists. split; [vm_compute; reflexivity|].
  split; [vm_compute; reflexivity|]. split; vm_compute; reflexivity.
Qed.

Lemma setReachable_guard_witness :
  JSType_eqb (typeof (JSStr "no")) TBoolean = false /\
  setReachable (JSStr "no") cleared_shown_path = cleared_shown_path /\
  getState cleared_shown_path = JSNum (Num.ofZ 5) /\
  isVisible cleared_shown_path = JSBool true /\
  isVisible (setReachable (JSBool false) cleared_shown_path) = JSBool false.
Proof.
  split; [reflexivity|].
  split; [exact (proj1 (setReachable_guard cleared_shown_path)
                   (JSStr "no") eq_refl)|].
  split; [vm_compute; reflexivity|]. split; [vm_compute; reflexivity|].
  exact (proj1 (proj2 (setReachable_guard cleared_shown_path))).
Defined.

(** The connector shown above carried neither marker before
    [setReachable(false)] and carries both after it. *)
Example setReachable_false_markers :
  contains "display-none" (classList (dom cleared_shown_path)) = false /\
  contains "display-none"
    (classList (dom (setReachable (JSBool false) cleared_shown_path))) = true /\
  contains "transparent"
    (classList (dom (setReachable (JSBool false) cleared_shown_path))) = true.
Proof. repeat split; vm_compute; reflexivity. Qed.

(** C6.  The connector is [cleared] and carries the tag of [cleared];
    [setState(states.cleared, {force: true})], a call with the stored
    state, reads [states[5]], stores [undefined] and takes the tag away. *)
Lemma forced_same_state_loses_state :
  getState cleared_shown_path = JSNum (Num.ofZ 5) /\
  get_prop stage_states "cleared" = JSNum (Num.ofZ 5) /\
  active_tags cleared_shown_path = ["h5p-game-map-path-cleared"] /\
  exists p',
    setState (JSNum (Num.ofZ 5)) (JSBool true) cleared_shown_path
    = Normal p' /\
    getState p' = JSUndefined /\
    active_tags p' = [].
Proof.
  split; [vm_compute; reflexivity|]. split; [vm_compute; reflexivity|].
  split; [vm_compute; reflexivity|].
  eexists. split; [vm_compute; reflexivity|].
  split; vm_compute; reflexivity.
Qed.

(** Configured [state = cleared], [visible = true], paths displayed: the
    initial reset leaves [cleared] and visible, the other one [open] and
    hidden.  Configured [sealed], the initial reset shows the connector all
    the same; configured ['cleared'] by name, it leaves [cleared]. *)
Lemma reset_behaviour_witness :
  valid_keys (states (globals (params (cleared_path true)))) = true /\
  get_prop (states (globals (params (cleared_path true)))) "open"
  = JSNum (Num.ofZ 2) /\
  (exists p',
      reset (JSBool true) (cleared_path true) = Normal p' /\
      strict_eq (getState p') (JSNum (Num.ofZ 5)) = true) /\
  (exists p',
      reset (JSBool true) (cleared_path true) = Normal p' /\
      getState p'
      = getState (object_of (setState (params_state (params (cleared_path true)))
                               JSUndefined (cleared_path true))) /\
      isVisible p' = JSBool true) /\
  (exists p',
      reset (JSBool false) (cleared_path true) = Normal p' /\
      getState p' = JSNum (Num.ofZ 2) /\
      isVisible p' = JSBool false) /\
  (exists p',
      reset JSUndefined (cleared_path true) = Normal p' /\
      getState p' = JSNum (Num.ofZ 2) /\
      isVisible p' = JSBool false) /\
  (exists p',
      reset (JSBool true) sealed_path = Normal p' /\
      getState p'
      = getState (object_of (setState (params_state (params sealed_path))
                               JSUndefined sealed_path)) /\
      isVisible p' = JSBool true) /\
  (exists p',
      reset (JSBool true) named_cleared_path = Normal p' /\
      strict_eq (getState p') (JSNum (Num.ofZ 5)) = true).
Proof.
  split; [vm_compute; reflexivity|].
  split; [vm_compute; reflexivity|].
  destruct (reset_behaviour (cleared_path true) (Num.ofZ 2)
              ltac:(vm_compute; reflexivity) ltac:(vm_compute; reflexivity)
              ltac:(vm_compute; reflexivity))
    as (_ & H2 & H3 & H4).
  destruct (reset_behaviour sealed_path (Num.ofZ 2)
              ltac:(vm_compute; reflexivity) ltac:(vm_compute; reflexivity)
              ltac:(vm_compute; reflexivity))
    as (_ & _ & S3 & _).
  destruct (reset_behaviour named_cleared_path (Num.ofZ 2)
              ltac:(vm_compute; reflexivity) ltac:(vm_compute; reflexivity)
              ltac:(vm_compute; reflexivity))
    as (_ & _ & _ & N4).
  split; [|split; [|split; [|split; [|split]]]].
  - apply (H4 (JSBool true) (Num.ofZ 5)); try (vm_compute; reflexivity).
    right. vm_compute. reflexivity.
  - exact (H3 (JSBool true) eq_refl ltac:(vm_compute; reflexivity)).
  - exact (H2 (JSBool false) eq_refl).
  - exact (H2 JSUndefined eq_refl).
  - exact (S3 (JSBool true) eq_refl ltac:(vm_compute; reflexivity)).
  - apply (N4 (JSBool true) (Num.ofZ 5)); try (vm_compute; reflexivity).
    right. vm_compute. reflexivity.
Defined.

(** Configured [state = cleared], [visible = true], paths not displayed:
    the initial reset leaves the connector not visible. *)
Lemma reset_initial_not_visible :
  params_state (params (cleared_path false)) = JSNum (Num.ofZ 5) /\
  ToBoolean (visible (params (cleared_path false))) = true /\
  exists p',
    reset (JSBool true) (cleared_path false) = Normal p' /\
    getState p' = JSNum (Num.ofZ 5) /\
    isVisible p' = JSUndefined /\
    isVisible p' <> JSBool true.
Proof.
  split; [vm_compute; reflexivity|]. split; [vm_compute; reflexivity|].
  eexists. split; [vm_compute; reflexivity|].
  split; [vm_compute; reflexivity|].
  split; [vm_compute; reflexivity|vm_compute; discriminate].
Qed.

Lemma visibility_undefined_until_hide_witness :
  ToBoolean (cfg_visible (cleared_visible false)) = true /\
  ToBoolean (displayPaths (cfg_globals (cleared_visible false))) = false /\
  valid_keys (states (cfg_globals (cleared_visible false))) = true /\
  isVisible (constructor (cleared_visible false)) = JSUndefined /\
  isVisible (run [CallShow; CallSetState (JSStr "cleared") JSUndefined;
                  CallResize geometry_mapSize; CallReset (JSBool true);
                  CallSetReachable (JSBool true)]
               (constructor (cleared_visible false))) = JSUndefined /\
  isVisible (run [CallShow; CallReset JSUndefined; CallShow]
               (constructor (cleared_visible false))) = JSBool false.
Proof.
  split; [reflexivity|]. split; [reflexivity|].
  split; [vm_compute; reflexivity|].
  destruct (visibility_undefined_until_hide (cleared_visible false)
              eq_refl eq_refl ltac:(vm_compute; reflexivity))
    as (H1 & H2 & _).
  split; [exact H1|]. split.
  - rewrite H2. reflexivity.
  - rewrite H2. reflexivity.
Defined.

(** Constructed visible with paths not displayed: a plain [reset()], with
    neither [hide()] nor [setReachable(false)] called, ends the undefined
    visibility. *)
Lemma reset_ends_undefined_visibility :
  ToBoolean (cfg_visible (cleared_visible false)) = true /\
  ToBoolean (displayPaths (cfg_globals (cleared_visible false))) = false /\
  isVisible (constructor (cleared_visible false)) = JSUndefined /\
  isVisible (run [CallReset JSUndefined] (constructor (cleared_visible false)))
  = JSBool false.
Proof.
  split; [reflexivity|]. split; [reflexivity|].
  split; vm_compute; reflexivity.
Qed.

(** ** Evaluations of the further properties *)

Lemma tags_follow_state_witness :
  keys_distinct (states (cfg_globals geometry_config)) = true /\
  valid_keys (states (cfg_globals geometry_config)) = true /\
  contains (state_tag "cleared")
    (classList (dom (run sample_history (constructor geometry_config))))
  = strict_eq (JSNum (Num.ofZ 5))
      (getState (run sample_history (constructor geometry_config))) /\
  getState (run sample_history (constructor geometry_config))
  = JSNum (Num.ofZ 5).
Proof.
  split; [vm_compute; reflexivity|]. split; [vm_compute; reflexivity|].
  split; [|vm_compute; reflexivity].
  apply (tags_follow_state geometry_config sample_history).
  - vm_compute; reflexivity.
  - vm_compute; reflexivity.
  - do 5 right. left. reflexivity.
Defined.

Lemma at_most_one_state_tag_witness :
  keys_distinct (states (cfg_globals geometry_config)) = true /\
  values_distinct (states (cfg_globals geometry_config)) = true /\
  (List.length (active_tags (run sample_history (constructor geometry_config)))
   <= 1)%nat.
Proof.
  split; [vm_compute; reflexivity|]. split; [vm_compute; reflexivity|].
  apply (at_most_one_state_tag geometry_config sample_history);
    vm_compute; reflexivity.
Defined.

Lemma show_is_two_phase_witness :
  ToBoolean (displayPaths (globals (params geometry_path))) = true /\
  contains "transparent" (classList (dom (show (hide geometry_path)))) = true /\
  contains "transparent"
    (classList (dom (animationFrame (show (hide geometry_path))))) = false.
Proof.
  split; [reflexivity|].
  destruct (show_is_two_phase geometry_path eq_refl)
    as (_ & _ & H3 & _ & _ & H6 & _).
  now split.
Defined.

Lemma hide_keeps_pending_frame_witness :
  ToBoolean (displayPaths (globals (params geometry_path))) = true /\
  isVisible (animationFrame (hide (show geometry_path))) = JSBool false /\
  contains "display-none"
    (classList (dom (animationFrame (hide (show geometry_path))))) = true /\
  contains "transparent"
    (classList (dom (animationFrame (hide (show geometry_path))))) = false.
Proof.
  split; [reflexivity|].
  exact (hide_keeps_pending_frame geometry_path eq_refl).
Defined.

Lemma visibility_is_boolean_witness :
  ToBoolean (displayPaths (cfg_globals geometry_config)) = true /\
  exists b,
    isVisible (run sample_history (constructor geometry_config)) = JSBool b.
Proof.
  split; [reflexivity|].
  apply (visibility_is_boolean geometry_config sample_history).
  right. reflexivity.
Defined.

Lemma resize_last_wins_witness :
  (exists t,
      computePathTelemetry geometry_path geometry_mapSize = Some t /\
      accepted_telemetry t = true) /\
  resize geometry_mapSize (resize small_mapSize geometry_path)
  = resize geometry_mapSize geometry_path.
Proof.
  split.
  - eexists. split; vm_compute; reflexivity.
  - eapply (proj1 (resize_last_wins geometry_path)
              small_mapSize geometry_mapSize);
      vm_compute; reflexivity.
Defined.

Lemma coincident_boxes_witness :
  Math_atan Num.NaN = Num.NaN /\
  exists t,
    computePathTelemetry coincident_path geometry_mapSize = Some t /\
    t_angle t = Num.NaN /\
    t_length t
    = (Num.pzero - fromBoxPixelWidth coincident_path geometry_mapSize)%num.
Proof.
  split; [reflexivity|].
  apply (coincident_boxes coincident_path geometry_mapSize);
    vm_compute; reflexivity.
Defined.

Lemma horizontal_angle_witness :
  deltaYPx leftward_path geometry_mapSize = Num.pzero /\
  Num.ltb Num.pzero (deltaXPx leftward_path geometry_mapSize) = true /\
  exists t,
    computePathTelemetry leftward_path geometry_mapSize = Some t /\
    t_angle t = Math_PI.
Proof.
  split; [vm_compute; reflexivity|]. split; [vm_compute; reflexivity|].
  destruct (horizontal_angle (rt := Sample.runtime)
              leftward_path geometry_mapSize
              ltac:(intros s; reflexivity) eq_refl eq_refl
              ltac:(vm_compute; reflexivity)) as (t & Ht & _ & H).
  exists t. split; [exact Ht|]. apply H. vm_compute; reflexivity.
Defined.

Lemma stroke_width_is_fraction_witness :
  Num.leb MIN_WIDTH_PX
    (fromBoxPixelWidth geometry_path geometry_mapSize
     * pathWidth (params geometry_path))%num = true /\
  exists t,
    computePathTelemetry geometry_path geometry_mapSize = Some t /\
    t_width t
    = (fromBoxPixelWidth geometry_path geometry_mapSize
       * pathWidth (params geometry_path))%num.
Proof.
  split; [vm_compute; reflexivity|].
  apply (stroke_width_is_fraction geometry_path geometry_mapSize);
    vm_compute; reflexivity.
Defined.

Lemma stroke_width_nan_witness :
  Num.isNaN (pathWidth (params nan_width_path)) = true /\
  exists t,
    computePathTelemetry nan_width_path geometry_mapSize = Some t /\
    t_width t = Num.NaN.
Proof.
  split; [vm_compute; reflexivity|].
  apply (stroke_width_nan nan_width_path geometry_mapSize);
    [vm_compute; reflexivity|vm_compute; reflexivity|].
  right. vm_compute; reflexivity.
Defined.

Lemma setState_name_is_value_witness :
  keys_distinct (states (globals (params open_path))) = true /\
  setState (JSStr "sealed") (JSBool true) open_path
  = setState (JSNum (Num.ofZ 6)) (JSBool true) open_path.
Proof.
  split; [vm_compute; reflexivity|].
  apply (setState_name_is_value open_path "sealed" (Num.ofZ 6) (JSBool true)).
  - vm_compute; reflexivity.
  - do 6 right. left. reflexivity.
Defined.

Lemma setState_open_or_cleared_witness :
  tags_consistent open_path = true /\
  valid_keys (states (globals (params open_path))) = true /\
  exists p',
    setState (JSStr "cleared") JSUndefined open_path = Normal p' /\
    strict_eq (getState p') (JSNum (Num.ofZ 5)) = true /\
    active_tags p' = [state_tag "cleared"].
Proof.
  split; [vm_compute; reflexivity|]. split; [vm_compute; reflexivity|].
  apply (setState_open_or_cleared open_path "cleared" (Num.ofZ 5) JSUndefined);
    try (vm_compute; reflexivity).
  - do 5 right. left. reflexivity.
  - right. reflexivity.
Defined.


Lemma setState_touches_state_only_witness :
  JSType_eqb (typeof JSNull) TNumber = false /\
  JSType_eqb (typeof JSNull) TString = false /\
  setState JSNull (JSBool true) open_path = Normal open_path /\
  contains "transparent"
    (classList (dom (object_of (setState (JSStr "cleared") JSUndefined
                                  open_path))))
  = contains "transparent" (classList (dom open_path)).
Proof.
  split; [reflexivity|]. split; [reflexivity|].
  destruct (setState_touches_state_only JSNull (JSBool true) open_path)
    as (_ & _ & _ & _ & _ & _ & H).
  split; [exact (H eq_refl eq_refl)|].
  destruct (setState_touches_state_only (JSStr "cleared") JSUndefined
              open_path) as (_ & _ & _ & _ & _ & H' & _).
  apply H'. intros k. reflexivity.
Defined.

Lemma reset_unknown_initial_state_witness :
  params_state (params misnamed_path) = JSStr "finished" /\
  find_entry (states (globals (params misnamed_path))) "finished" = None /\
  reset (JSBool true) misnamed_path
  = Throw TypeError (set_isReachableState (JSBool true) misnamed_path).
Proof.
  split; [vm_compute; reflexivity|]. split; [vm_compute; reflexivity|].
  exact (proj1 (reset_unknown_initial_state misnamed_path (JSBool true)
                  "finished" eq_refl
                  ltac:(vm_compute; reflexivity)
                  ltac:(vm_compute; reflexivity))).
Defined.

Lemma reset_plain_idempotent_witness :
  get_prop (states (globals (params cleared_shown_path))) "open"
  = JSNum (Num.ofZ 2) /\
  valid_keys (states (globals (params cleared_shown_path))) = true /\
  exists p',
    reset JSUndefined cleared_shown_path = Normal p' /\
    active_tags p' = [state_tag "open"] /\
    reset JSUndefined p' = Normal p'.
Proof.
  split; [vm_compute; reflexivity|]. split; [vm_compute; reflexivity|].
  apply (reset_plain_idempotent cleared_shown_path JSUndefined (Num.ofZ 2));
    vm_compute; reflexivity.
Defined.

Lemma connectsTo_strict_witness :
  fromId (params geometry_path) = JSStr "a" /\
  toId (params geometry_path) = JSStr "b" /\
  connectsTo (JSStr "b") geometry_path = true /\
  (connectsTo (JSNum (Num.ofZ 1)) geometry_path = true ->
   JSNum (Num.ofZ 1) = JSStr "a" \/ JSNum (Num.ofZ 1) = JSStr "b").
Proof.
  split; [reflexivity|]. split; [reflexivity|].
  pose proof (connectsTo_strict geometry_path "a" "b" eq_refl eq_refl) as H.
  split.
  - apply (proj2 (H (JSStr "b"))). right. reflexivity.
  - exact (proj1 (H (JSNum (Num.ofZ 1)))).
Defined.

(** The literal classes and the tags of the sample enumeration are tokens
    the element takes; the tag of a key with a space is not. *)
Example tokens_of_the_component :
  valid_token base_class = true /\
  valid_token "display-none" = true /\
  valid_token "transparent" = true /\
  valid_keys stage_states = true /\
  valid_keys [("open", Num.ofZ 2); ("in progress", Num.ofZ 3)] = false.
Proof. repeat split; vm_compute; reflexivity. Qed.
